(** * lensy: a directory and repository summary tool

    A shallow embedding of [lensy.py] and the properties of its five
    components: the version-control metadata collector, the directory
    overview collector, the recursive stats collector, the summary formatter
    and the entry point.

    The program is glue around the operating system, so the embedding fixes a
    model of what it talks to:
    - a Python [str] is a [string]; a character is a code point below 256;
    - the filesystem is a tree of files, directories and symbolic links,
      entries of a directory being listed in the order the system reports
      them; a directory may refuse to be listed or to be entered, and a link
      may have lost its target;
    - the version-control client is an oracle giving, for an argument vector
      and a working directory, an exit status and a standard output;
    - effects are threaded through a state-and-exception monad whose state is
      the list of system calls made so far. *)

From Stdlib Require Import List String Ascii Bool NArith ZArith Lia.
From Stdlib Require Import Permutation Sorted DecimalString.
Import ListNotations.

Open Scope string_scope.
Open Scope list_scope.

(** ** Python strings *)

Module Str.

(** [str.isspace] on the code points below 256: the ASCII blanks, the four
    separators U+001C..U+001F, NEL (U+0085) and NBSP (U+00A0). *)
Definition isspace (c : ascii) : bool :=
  let n := N_of_ascii c in
  ((9 <=? n) && (n <=? 13) || (28 <=? n) && (n <=? 32)
   || (n =? 133) || (n =? 160))%N.

Fixpoint lstrip (s : string) : string :=
  match s with
  | EmptyString => EmptyString
  | String c r => if isspace c then lstrip r else s
  end.

Fixpoint rstrip (s : string) : string :=
  match s with
  | EmptyString => EmptyString
  | String c r =>
      match rstrip r with
      | EmptyString => if isspace c then EmptyString else String c EmptyString
      | r' => String c r'
      end
  end.

(** [s.strip()] *)
Definition strip (s : string) : string := rstrip (lstrip s).

(** Truth value of a string: [bool(s)]. *)
Definition truthy (s : string) : bool := negb (s =? "")%string.

(** [o or d] for an [Optional[str]]: [None] and the empty string are both
    falsy. *)
Definition or_else (o : option string) (d : string) : string :=
  match o with
  | Some s => if truthy s then s else d
  | None => d
  end.

(** [sep.join(parts)] *)
Fixpoint join (sep : string) (parts : list string) : string :=
  match parts with
  | [] => ""
  | [p] => p
  | p :: rest => (p ++ sep ++ join sep rest)%string
  end.

(** [str(n)] for a non-negative integer. *)
Definition of_N (n : N) : string := NilZero.string_of_uint (N.to_uint n).

(** Every character of the string is white space. *)
Fixpoint blank (s : string) : bool :=
  match s with
  | EmptyString => true
  | String c r => isspace c && blank r
  end.


Definition startswith (s pre : string) : Prop :=
  exists post, s = (pre ++ post)%string.

Definition newline : ascii := ascii_of_nat 10.

(** The string has no line feed. *)
Fixpoint one_line (s : string) : bool :=
  match s with
  | EmptyString => true
  | String c r => negb (Ascii.eqb c newline) && one_line r
  end.

(** [s.split("\n")] *)
Fixpoint split_lines (s : string) : list string :=
  match s with
  | EmptyString => [EmptyString]
  | String c r =>
      if Ascii.eqb c newline then EmptyString :: split_lines r
      else
        match split_lines r with
        | h :: t => String c h :: t
        | [] => [String c EmptyString]
        end
  end.

End Str.

(** ** Floating point, as far as the program uses it

    The only float of the program is [st_size / 1024], printed with [.1f].
    A binary64 value that is a non-negative multiple of a power of two is kept
    as a dyadic fraction; rounding is to nearest, ties to even, as in IEEE 754
    and in Python's float formatting. *)

Module Float.

(** [a / b] rounded to the nearest integer, ties to even ([b > 0]). *)
Definition round_half_even (a b : N) : N :=
  let q := (a / b)%N in
  match (2 * (a mod b) ?= b)%N with
  | Lt => q
  | Gt => (q + 1)%N
  | Eq => if N.even q then q else (q + 1)%N
  end.

(** The binary64 nearest to the integer [n]: [n] itself below 2^53,
    otherwise [n] rounded to 53 significant bits. *)
Definition nearest_double (n : N) : N :=
  if (n <? 2 ^ 53)%N then n
  else
    let ulp := (2 ^ (N.log2 n - 52))%N in
    (round_half_even n ulp * ulp)%N.

(** The value [num / 2^scale]. *)
Record dyadic := { num : N; scale : N }.

(** [n / 1024] for an [int] [n]: true division is correctly rounded, and
    dividing by a power of two only moves the exponent. *)
Definition div_1024 (n : N) : dyadic :=
  {| num := nearest_double n; scale := 10 |}.

(** The number of tenths printed by [.1f]. *)
Definition tenths (x : dyadic) : N :=
  round_half_even (10 * num x) (2 ^ scale x).

(** [f"{x:.1f}"] *)
Definition format_1f (x : dyadic) : string :=
  let t := tenths x in
  (Str.of_N (t / 10) ++ "." ++ Str.of_N (t mod 10))%string.

End Float.

(** ** The filesystem *)

Definition path := list string.

(** [str(p)] for an absolute POSIX path. *)
Definition path_str (p : path) : string :=
  ("/" ++ Str.join "/" p)%string.

(** A filesystem object as the program can observe it.
    - [File]: an object that answers [stat] and is not a directory;
    - [Dir]: a directory that can be entered and whose entries all answer
      [stat]; it refuses to be listed when [readable] is false;
    - [Loose]: a directory that can be entered and listed and that holds,
      besides its entries, symbolic links whose target is missing, given by
      name;
    - [Link]: a symbolic link to an object;
    - [Closed]: a directory that can be neither entered nor listed.
    A directory that can be listed but not entered (read permission without
    search permission) is not part of the model. *)
#[local] Unset Elimination Schemes.
Inductive node : Type :=
| File (st_size : N)
| Dir (readable : bool) (entries : list (string * node))
| Loose (entries : list (string * node)) (dangling : list string)
| Link (target : node)
| Closed.
#[local] Set Elimination Schemes.

(** What a chain of links leads to. *)
Fixpoint target (n : node) : node :=
  match n with
  | Link t => target t
  | _ => n
  end.

(** [stat] follows links. *)
Fixpoint is_dir_node (n : node) : bool :=
  match n with
  | File _ => false
  | Dir _ _ => true
  | Loose _ _ => true
  | Link t => is_dir_node t
  | Closed => true
  end.

Fixpoint find_child (name : string) (es : list (string * node)) : option node :=
  match es with
  | [] => None
  | (nm, c) :: es' => if (nm =? name)%string then Some c else find_child name es'
  end.

(** The object a path denotes, from the top of the filesystem, links
    followed: nothing when a component is missing, is a link without target,
    is not a directory, or lies in a directory that cannot be entered. *)
Fixpoint lookup (n : node) (p : path) : option node :=
  match p with
  | [] => Some (target n)
  | c :: p' =>
      match target n with
      | Dir _ es | Loose es _ =>
          match find_child c es with
          | Some ch => lookup ch p'
          | None => None
          end
      | _ => None
      end
  end.

(** ** The outside world *)

(** [subprocess.CompletedProcess], the two fields the program reads. *)
Record CompletedProcess := {
  returncode : Z;
  stdout : string
}.

Record world := {
  fs : node;
  (** what running the argument vector in a directory gives *)
  exec : list string -> path -> CompletedProcess;
  (** [Path(arg).expanduser().resolve()] *)
  resolve : string -> path;
  (** the program name argparse prints *)
  prog : string
}.

(** ** Effects *)

Inductive exn : Type :=
| NotADirectoryError (p : path)
| PermissionError (p : path)
| FileNotFoundError (p : path).

(** The system calls the program makes. *)
Inductive call : Type :=
| Exists (p : path)
| Spawn (argv : list string) (cwd : path)
| Iterdir (p : path)
| IsDir (p : path)
| Stat (p : path)
| Scandir (p : path).


Inductive result (A : Type) : Type :=
| Ok (a : A)
| Raise (e : exn).
Arguments Ok {A} a.
Arguments Raise {A} e.

Definition M (A : Type) : Type := list call -> result A * list call.

Definition ret {A} (a : A) : M A := fun t => (Ok a, t).

Definition bind {A B} (m : M A) (k : A -> M B) : M B :=
  fun t =>
    match m t with
    | (Ok a, t') => k a t'
    | (Raise e, t') => (Raise e, t')
    end.

Definition raise {A} (e : exn) : M A := fun t => (Raise e, t).

Definition log (c : call) : M unit := fun t => (Ok tt, t ++ [c]).

Notation "x <- m ;; k" := (bind m (fun x => k))
  (at level 61, m at next level, right associativity).
Notation "m ;;; k" := (bind m (fun _ => k))
  (at level 61, right associativity).

(** The value and the calls of a computation started with no call made. *)
Definition value {A} (m : M A) : result A := fst (m []).
Definition trace {A} (m : M A) : list call := snd (m []).

(** ** System calls *)

(** What stops a process from changing to the directory [n], if anything. *)
Fixpoint chdir_error (cwd : path) (n : node) : option exn :=
  match n with
  | File _ => Some (NotADirectoryError cwd)
  | Dir _ _ => None
  | Loose _ _ => None
  | Link t => chdir_error cwd t
  | Closed => Some (PermissionError cwd)
  end.

(** [subprocess.run(argv, cwd=cwd, capture_output=True, text=True,
    check=False)]. The child changes to [cwd] before it runs the client, so
    a working directory that is missing, is not a directory or cannot be
    entered makes the call raise; otherwise the call completes, whatever the
    exit status. The client is taken to be installed. *)
Definition subprocess_run (w : world) (argv : list string) (cwd : path)
  : M CompletedProcess :=
  log (Spawn argv cwd) ;;;
  match lookup (fs w) cwd with
  | None => raise (FileNotFoundError cwd)
  | Some n =>
      match chdir_error cwd n with
      | Some e => raise e
      | None => ret (exec w argv cwd)
      end
  end.

(** [root.exists()]. A path under a directory that cannot be entered is
    reported missing, as [os.path.exists] does. *)
Definition exists_ (w : world) (p : path) : M bool :=
  log (Exists p) ;;;
  ret (match lookup (fs w) p with Some _ => true | None => false end).

(** A child as a listing gives it: its name and what the name denotes,
    nothing for a link whose target is missing. *)
Definition child : Type := string * option node.

Definition present (es : list (string * node)) : list child :=
  map (fun e => (fst e, Some (snd e))) es.

Definition broken (ds : list string) : list child :=
  map (fun d => (d, None)) ds.

(** The listing of the directory [n], or what refuses it. *)
Fixpoint listing (p : path) (n : node) : result (list child) :=
  match n with
  | File _ => Raise (NotADirectoryError p)
  | Dir true es => Ok (present es)
  | Dir false _ => Raise (PermissionError p)
  | Loose es ds => Ok (present es ++ broken ds)
  | Link t => listing p t
  | Closed => Raise (PermissionError p)
  end.

(** [root.iterdir()], consumed at once by [sorted]. *)
Definition iterdir (w : world) (p : path) : M (list child) :=
  log (Iterdir p) ;;;
  match lookup (fs w) p with
  | None => raise (FileNotFoundError p)
  | Some n =>
      match listing p n with
      | Ok children => ret children
      | Raise e => raise e
      end
  end.

(** [path.is_dir()] on a child just listed: a link without target is no
    directory. *)
Definition is_dir (p : path) (o : option node) : M bool :=
  log (IsDir p) ;;;
  ret (match o with Some n => is_dir_node n | None => false end).

(** The size [stat] reports; the program reads it for objects that are not
    directories only. *)
Fixpoint node_size (n : node) : N :=
  match n with
  | File sz => sz
  | Link t => node_size t
  | _ => 0%N
  end.

(** [path.stat().st_size] on a child just listed: [stat] finds no file behind
    a link without target. *)
Definition stat_size (p : path) (o : option node) : M N :=
  log (Stat p) ;;;
  match o with
  | Some n => ret (node_size n)
  | None => raise (FileNotFoundError p)
  end.

(** ** Version-control metadata collector *)

Record GitInfo := {
  branch : string;
  latest_commit : string;
  dirty : bool;
  remote : option string
}.

Definition run_git (w : world) (args : list string) (cwd : path)
  : M (option string) :=
  result <- subprocess_run w ("git" :: args) cwd ;;
  if negb (returncode result =? 0)%Z then ret None
  else ret (Some (Str.strip (stdout result))).

Definition branch_args : list string := ["rev-parse"; "--abbrev-ref"; "HEAD"].
Definition log_args : list string := ["log"; "-1"; "--pretty=format:%h %s"].
Definition status_args : list string := ["status"; "--porcelain"].
Definition remote_args : list string := ["remote"; "get-url"; "origin"].

Definition collect_git_info (w : world) (root : path) : M (option GitInfo) :=
  branch <- run_git w branch_args root ;;
  match branch with
  | None => ret None
  | Some branch =>
      latest <- run_git w log_args root ;;
      let latest_commit := Str.or_else latest "n/a" in
      status <- run_git w status_args root ;;
      let status_output := Str.or_else status "" in
      let dirty := Str.truthy (Str.strip status_output) in
      remote <- run_git w remote_args root ;;
      ret (Some {| branch := branch;
                   latest_commit := latest_commit;
                   dirty := dirty;
                   remote := remote |})
  end.

(** ** Directory overview collector *)

(** [sorted] on the children of one directory compares their names; it is
    stable, as insertion from the right is. *)
Fixpoint insert_by_name {A} (x : string * A) (l : list (string * A))
  : list (string * A) :=
  match l with
  | [] => [x]
  | y :: l' =>
      if String.leb (fst x) (fst y) then x :: l
      else y :: insert_by_name x l'
  end.

Fixpoint sorted {A} (l : list (string * A)) : list (string * A) :=
  match l with
  | [] => []
  | x :: l' => insert_by_name x (sorted l')
  end.

Definition dir_entry (name : string) : string := (name ++ "/")%string.

Definition file_entry (name : string) (st_size : N) : string :=
  let size_kb := Float.div_1024 st_size in
  (name ++ " (" ++ Float.format_1f size_kb ++ " KB)")%string.

(** The body of the [for] loop, over the paths still to visit. *)
Fixpoint overview_loop (root : path) (paths : list child)
  (entries : list string) : M (list string) :=
  match paths with
  | [] => ret entries
  | (name, o) :: rest =>
      if (name =? ".git")%string then overview_loop root rest entries
      else
        d <- is_dir (root ++ [name]) o ;;
        if d then overview_loop root rest (entries ++ [dir_entry name])
        else
          st_size <- stat_size (root ++ [name]) o ;;
          overview_loop root rest (entries ++ [file_entry name st_size])
  end.

Definition collect_file_overview (w : world) (root : path) : M (list string) :=
  children <- iterdir w root ;;
  overview_loop root (sorted children) [].

(** ** Recursive stats collector *)

Definition dir_names (es : list (string * node)) : list string :=
  map fst (filter (fun e => is_dir_node (snd e)) es).

Definition nondir_names (es : list (string * node)) : list string :=
  map fst (filter (fun e => negb (is_dir_node (snd e))) es).

Section Walk.

Context {A : Type}.

(** The body of a loop [for current, dirnames, filenames in os.walk(top)],
    as a function of the loop's own variables [A]. The list [dirnames] is
    shared with the walk, which descends into what the body left in it: the
    body returns the list as it stands when the iteration ends. *)
Variable body : path -> list string -> list string -> A -> A * list string.

(** [os.walk(top)], top down, with the defaults [onerror=None] (a directory
    that cannot be listed yields nothing and raises nothing) and
    [followlinks=False] (a link found among the subdirectories is not
    walked; the top the program gives has its links resolved). A link
    without target is no directory: its name goes with the file names. *)
Fixpoint os_walk (top : path) (n : node) (acc : A) {struct n} : M A :=
  match n with
  | File _ => log (Scandir top) ;;; ret acc
  | Dir false _ => log (Scandir top) ;;; ret acc
  | Closed => log (Scandir top) ;;; ret acc
  | Link _ => ret acc
  | Dir true es =>
      log (Scandir top) ;;;
      let (acc', dirnames) := body top (dir_names es) (nondir_names es) acc in
      (fix descend (ds : list string) (acc : A) {struct ds} : M A :=
         match ds with
         | [] => ret acc
         | d :: ds' =>
             acc1 <-
               (fix visit (cs : list (string * node)) {struct cs} : M A :=
                  match cs with
                  | [] => log (Scandir (top ++ [d])) ;;; ret acc
                  | (nm, c) :: cs' =>
                      if (nm =? d)%string then os_walk (top ++ [d]) c acc
                      else visit cs'
                  end) es ;;
             descend ds' acc1
         end) dirnames acc'
  | Loose es links =>
      log (Scandir top) ;;;
      let (acc', dirnames) :=
        body top (dir_names es) (nondir_names es ++ links) acc in
      (fix descend (ds : list string) (acc : A) {struct ds} : M A :=
         match ds with
         | [] => ret acc
         | d :: ds' =>
             acc1 <-
               (fix visit (cs : list (string * node)) {struct cs} : M A :=
                  match cs with
                  | [] =>
                      if existsb (String.eqb d) links then ret acc
                      else log (Scandir (top ++ [d])) ;;; ret acc
                  | (nm, c) :: cs' =>
                      if (nm =? d)%string then os_walk (top ++ [d]) c acc
                      else visit cs'
                  end) es ;;
             descend ds' acc1
         end) dirnames acc'
  end.

End Walk.

(** The result dictionary, with its two keys. *)
Record Stats := {
  files : N;
  dirs : N
}.

Definition stats_body (current : path) (dirnames filenames : list string)
  (acc : Stats) : Stats * list string :=
  let dirnames := filter (fun d => negb (d =? ".git")%string) dirnames in
  let dirs := (dirs acc + N.of_nat (List.length dirnames))%N in
  let files := (files acc + N.of_nat (List.length filenames))%N in
  ({| files := files; dirs := dirs |}, dirnames).

Definition collect_stats (w : world) (root : path) : M Stats :=
  let start := {| files := 0; dirs := 0 |} in
  match lookup (fs w) root with
  | Some n => os_walk stats_body root n start
  | None => log (Scandir root) ;;; ret start
  end.

(** ** Summary formatter *)

Definition nl : string := String Str.newline EmptyString.

(** The list [lines] the formatter builds from what the collectors gave. *)
Definition summary_lines (root : path) (git_info : option GitInfo)
  (file_listing : list string) (stats : Stats) : list string :=
  let lines := ["Path: " ++ path_str root]%string in
  let lines :=
    match git_info with
    | Some gi =>
        lines ++
        [ "Branch: " ++ branch gi;
          "Latest commit: " ++ latest_commit gi;
          "Remote: " ++ Str.or_else (remote gi) "n/a";
          "Working tree: " ++ (if dirty gi then "dirty" else "clean") ]%string
    | None => lines ++ ["Git: n/a (not a repository)"]
    end in
  lines ++
  [ "";
    "Contents: " ++ Str.of_N (files stats) ++ " files in "
      ++ Str.of_N (dirs stats) ++ " directories" ]%string
  ++ map (fun entry => "  - " ++ entry)%string file_listing.

Definition format_summary (w : world) (root : path) : M string :=
  git_info <- collect_git_info w root ;;
  file_listing <- collect_file_overview w root ;;
  stats <- collect_stats w root ;;
  ret (Str.join nl (summary_lines root git_info file_listing stats)).

(** ** Entry point *)

(** What the process wrote on standard error. *)
Inductive stderr_output : Type :=
| Silent
| Message (text : string)
| Traceback (e : exn).

Record outcome := {
  printed : string;
  errors : stderr_output;
  status : Z;
  calls : list call
}.

(** [parser.error(message)] writes the usage line and the message on standard
    error and leaves with status 2. *)
Definition parser_error (w : world) (message : string) : string :=
  ("usage: " ++ prog w ++ " [-h] [path]" ++ nl
     ++ prog w ++ ": error: " ++ message ++ nl)%string.

(** [main], after [parse_args] gave the optional positional argument. An
    exception nobody handles ends the process with a traceback and status 1. *)
Definition main (w : world) (arg : option string) : outcome :=
  let arg_path := match arg with Some a => a | None => "." end in
  let root := resolve w arg_path in
  match exists_ w root [] with
  | (Ok false, t) =>
      {| printed := "";
         errors := Message (parser_error w ("Path does not exist: " ++ path_str root));
         status := 2;
         calls := t |}
  | (Ok true, t) =>
      match format_summary w root t with
      | (Ok summary, t') =>
          {| printed := (summary ++ nl)%string; errors := Silent; status := 0; calls := t' |}
      | (Raise e, t') =>
          {| printed := ""; errors := Traceback e; status := 1; calls := t' |}
      end
  | (Raise e, t) =>
      {| printed := ""; errors := Traceback e; status := 1; calls := t |}
  end.

(** ** Examples *)

Module Examples.

Definition repo_entries : list (string * node) :=
  [ ("src", Dir true [ ("main.py", File 2048);
                       (".git", Dir true [ ("x", File 1) ]) ]);
    ("README.md", File 10);
    (".git", Dir true [ ("HEAD", File 23); ("objects", Dir true []) ]) ].

Definition top_entries : list (string * node) :=
  [ ("repo", Dir true repo_entries);
    ("notes.txt", File 256);
    ("a", Dir true []);
    ("b", Dir true []);
    ("fresh", Dir true [ (".git", Dir true [ ("HEAD", File 23) ]);
                         ("README.md", File 10) ]) ].

(** No client answers: every query leaves with status 128. *)
Definition no_git (argv : list string) (cwd : path) : CompletedProcess :=
  {| returncode := 128; stdout := "" |}.

(** A clone on branch [main] with a modified file and no remote. *)
Definition some_git (argv : list string) (cwd : path) : CompletedProcess :=
  match argv with
  | [_; "rev-parse"; _; _] => {| returncode := 0; stdout := "main" ++ nl |}
  | [_; "log"; _; _] => {| returncode := 0; stdout := "1a2b3c4 first" |}
  | [_; "status"; _] => {| returncode := 0; stdout := " M README.md" ++ nl |}
  | _ => {| returncode := 2; stdout := "" |}
  end.

(** The same clone when the status query fails. *)
Definition broken_status_git (argv : list string) (cwd : path) : CompletedProcess :=
  match argv with
  | [_; "status"; _] => {| returncode := 128; stdout := "" |}
  | _ => some_git argv cwd
  end.

(** The same clone with nothing modified. *)
Definition clean_git (argv : list string) (cwd : path) : CompletedProcess :=
  match argv with
  | [_; "status"; _] => {| returncode := 0; stdout := "" |}
  | _ => some_git argv cwd
  end.

Definition world_with (g : list string -> path -> CompletedProcess) : world :=
  {| fs := Dir true top_entries;
     exec := g;
     resolve := fun a => [a];
     prog := "lensy.py" |}.

Definition w0 : world := world_with no_git.
Definition w1 : world := world_with some_git.
Definition w2 : world := world_with broken_status_git.
Definition w3 : world := world_with clean_git.

End Examples.

(** * Definitions for the properties *)

(** ** Running a computation *)

(** [runs m r tr]: whatever calls came before, [m] ends with [r] after making
    exactly the calls [tr]. *)
Definition runs {A} (m : M A) (r : result A) (tr : list call) : Prop :=
  forall t, m t = (r, t ++ tr).

(** ** The answers of the client *)

(** What one query gives the collector: nothing on a non-zero exit status,
    the stripped output otherwise. *)
Definition answer (w : world) (root : path) (args : list string)
  : option string :=
  let cp := exec w ("git" :: args) root in
  if (returncode cp =? 0)%Z then Some (Str.strip (stdout cp)) else None.

Definition is_directory (w : world) (p : path) : Prop :=
  exists r es, lookup (fs w) p = Some (Dir r es).

(** What the collector gives, from the four answers. *)
Definition git_info_of (w : world) (root : path) : option GitInfo :=
  match answer w root branch_args with
  | None => None
  | Some b =>
      Some {| branch := b;
              latest_commit := Str.or_else (answer w root log_args) "n/a";
              dirty := Str.truthy (Str.strip (Str.or_else (answer w root status_args) ""));
              remote := answer w root remote_args |}
  end.

Definition git_calls (w : world) (root : path) : list call :=
  match answer w root branch_args with
  | None => [Spawn ("git" :: branch_args) root]
  | Some _ => map (fun args => Spawn ("git" :: args) root)
                [branch_args; log_args; status_args; remote_args]
  end.

(** ** The children of a directory, as the overview shows them *)

Definition name_le {A} (x y : string * A) : Prop :=
  String.leb (fst x) (fst y) = true.

Definition not_git {A} (e : string * A) : bool := negb (fst e =? ".git")%string.

(** The line the loop appends for one child. *)
Definition entry_line (e : string * node) : string :=
  if is_dir_node (snd e) then dir_entry (fst e)
  else file_entry (fst e) (node_size (snd e)).

Definition child_is_dir (o : option node) : bool :=
  match o with
  | Some n => is_dir_node n
  | None => false
  end.

(** The calls of the loop over children that all answer. *)
Definition overview_calls (root : path) (l : list child) : list call :=
  flat_map (fun e =>
              if not_git e then
                if child_is_dir (snd e) then [IsDir (root ++ [fst e])]
                else [IsDir (root ++ [fst e]); Stat (root ++ [fst e])]
              else []) l.

(** The children that denote an object, with it. *)
Definition objects (l : list child) : list (string * node) :=
  flat_map (fun e => match snd e with
                     | Some n => [(fst e, n)]
                     | None => []
                     end) l.

(** Every child the overview has to show answers [stat]: the links without
    target, if any, are named ".git". *)
Definition statable (l : list child) : bool :=
  forallb (fun e => match snd e with
                    | Some _ => true
                    | None => negb (not_git e)
                    end) l.

(** ** Trees and their counts *)

(** Induction on a tree gives the property for every child of a directory
    and for the target of a link. *)
Fixpoint node_ind (P : node -> Prop)
  (HF : forall sz, P (File sz))
  (HD : forall r es, Forall (fun e => P (snd e)) es -> P (Dir r es))
  (HL : forall es ds, Forall (fun e => P (snd e)) es -> P (Loose es ds))
  (HK : forall t, P t -> P (Link t))
  (HC : P Closed)
  (n : node) {struct n} : P n :=
  match n with
  | File sz => HF sz
  | Dir r es =>
      HD r es
        ((fix all (cs : list (string * node)) : Forall (fun e => P (snd e)) cs :=
            match cs with
            | [] => Forall_nil _
            | (nm, c) :: cs' =>
                Forall_cons (nm, c) (node_ind P HF HD HL HK HC c) (all cs')
            end) es)
  | Loose es ds =>
      HL es ds
        ((fix all (cs : list (string * node)) : Forall (fun e => P (snd e)) cs :=
            match cs with
            | [] => Forall_nil _
            | (nm, c) :: cs' =>
                Forall_cons (nm, c) (node_ind P HF HD HL HK HC c) (all cs')
            end) es)
  | Link t => HK t (node_ind P HF HD HL HK HC t)
  | Closed => HC
  end.

(** No two entries of a directory share a name, at any depth. *)
Fixpoint unique (l : list string) : bool :=
  match l with
  | [] => true
  | x :: l' => negb (existsb (String.eqb x) l') && unique l'
  end.

Fixpoint wf (n : node) : bool :=
  match n with
  | File _ => true
  | Dir _ es => unique (map fst es) && forallb (fun e => wf (snd e)) es
  | Loose es ds =>
      unique (map fst es ++ ds) && forallb (fun e => wf (snd e)) es
  | Link t => wf t
  | Closed => true
  end.

(** The version-control internal directory, as an entry of its parent. *)
Definition is_git_dir (e : string * node) : bool :=
  (fst e =? ".git")%string && is_dir_node (snd e).

(** The tree without its version-control internal directories. *)
Fixpoint prune (n : node) : node :=
  match n with
  | File sz => File sz
  | Dir r es =>
      Dir r (flat_map (fun e => if is_git_dir e then []
                                else [(fst e, prune (snd e))]) es)
  | Loose es ds =>
      Loose (flat_map (fun e => if is_git_dir e then []
                                else [(fst e, prune (snd e))]) es) ds
  | Link t => Link t
  | Closed => Closed
  end.

Definition add_stats (a b : Stats) : Stats :=
  {| files := files a + files b; dirs := dirs a + dirs b |}.

Definition no_stats : Stats := {| files := 0; dirs := 0 |}.

(** One entry, as a file or as a directory. *)
Definition unit_stats (e : string * node) : Stats :=
  if is_dir_node (snd e) then {| files := 0; dirs := 1 |}
  else {| files := 1; dirs := 0 |}.

Definition total (l : list Stats) : Stats := fold_right add_stats no_stats l.

(** The files and the directories beneath a directory, counting every entry
    of every directory that can be listed: a link counts as what it leads to,
    a link without target as a file, and nothing is counted beneath a link
    or beneath a directory that cannot be listed. *)
Fixpoint count (n : node) : Stats :=
  match n with
  | File _ => no_stats
  | Dir false _ => no_stats
  | Dir true es =>
      total (map (fun e => add_stats (unit_stats e) (count (snd e))) es)
  | Loose es ds =>
      add_stats
        (total (map (fun e => add_stats (unit_stats e) (count (snd e))) es))
        {| files := N.of_nat (List.length ds); dirs := 0 |}
  | Link _ => no_stats
  | Closed => no_stats
  end.

(** ** The walk, one directory at a time *)

(** The two loops of the walk over the entries of one directory, for any
    way [walk] of walking a child: [visit_with] finds the child a name
    denotes, [descend_with] goes through the names left in [dirnames]. A name
    that denotes no entry is tried and fails, unless it is one of the links
    without target, which the walk leaves out. *)
Definition visit_with {A} (walk : path -> node -> A -> M A) (top : path)
  (links : list string) (d : string) (acc : A) : list (string * node) -> M A :=
  fix visit (cs : list (string * node)) {struct cs} : M A :=
    match cs with
    | [] =>
        if existsb (String.eqb d) links then ret acc
        else log (Scandir (top ++ [d])) ;;; ret acc
    | (nm, c) :: cs' =>
        if (nm =? d)%string then walk (top ++ [d]) c acc
        else visit cs'
    end.

Definition descend_with {A} (walk : path -> node -> A -> M A) (top : path)
  (es : list (string * node)) (links : list string) : list string -> A -> M A :=
  fix descend (ds : list string) (acc : A) {struct ds} : M A :=
    match ds with
    | [] => ret acc
    | d :: ds' =>
        acc1 <- visit_with walk top links d acc es ;;
        descend ds' acc1
    end.

(** A listing of a directory at or beneath [top], on a way that goes
    through no version-control internal directory. *)
Definition beneath (top : path) (c : call) : Prop :=
  exists rel, c = Scandir (top ++ rel) /\ ~ In ".git" rel.

(** The entries the stats loop descends into. *)
Definition kept (e : string * node) : bool :=
  is_dir_node (snd e) && not_git e.

(** What the walk over a tree comes to: the counts of the pruned tree are
    added to the counters, on a way through no internal directory. *)
Definition walk_counts_pruned (n : node) : Prop :=
  forall top acc,
  exists tr,
    runs (os_walk stats_body top n acc)
         (Ok (add_stats acc (count (prune n)))) tr
    /\ Forall (beneath top) tr.

(** ** The lines of the summary *)

Definition path_line (root : path) : string := ("Path: " ++ path_str root)%string.

Definition fallback_line : string := "Git: n/a (not a repository)".

Definition contents_line (stats : Stats) : string :=
  ("Contents: " ++ Str.of_N (files stats) ++ " files in "
     ++ Str.of_N (dirs stats) ++ " directories")%string.

Definition bullets (listing : list string) : list string :=
  map (fun entry => "  - " ++ entry)%string listing.

(** A line of the version-control block. *)
Definition metadata_line (l : string) : Prop :=
  Str.startswith l "Branch: " \/ Str.startswith l "Latest commit: "
  \/ Str.startswith l "Remote: " \/ Str.startswith l "Working tree: ".

(** The working-tree line for the answer of the status query. *)
Definition working_tree_line (status : option string) : string :=
  ("Working tree: " ++
   (if Str.truthy (Str.strip (Str.or_else status "")) then "dirty" else "clean"))%string.

(** ** Outcomes *)

(** The process died of an exception raised by the listing of [root]: the
    listing is the last call it made. *)
Definition fails_while_listing (o : outcome) (root : path) : Prop :=
  exists e made, errors o = Traceback e /\ calls o = made ++ [Iterdir root].

(** ** Sizes *)

(** [t] tenths of a kilobyte are shown for a file of [sz] bytes: there is a
    number [m], which is [sz] below 2^53 and differs from [sz] by at most
    [sz / 2^53] in any case, such that [t / 10] is as close to [m / 1024] as
    a number of tenths can be. *)
Definition shown_tenths (sz t : N) : Prop :=
  exists m : N,
    ((sz < 2 ^ 53 -> m = sz)
     /\ 2 ^ 53 * m <= 2 ^ 53 * sz + sz
     /\ 2 ^ 53 * sz <= 2 ^ 53 * m + sz
     /\ 1024 * t <= 10 * m + 512
     /\ 10 * m <= 1024 * t + 512)%N.

(** What the overview shows of one child. *)
Definition rendered (e : string * node) (line : string) : Prop :=
  if is_dir_node (snd e) then line = (fst e ++ "/")%string
  else
    exists t,
      line = (fst e ++ " (" ++ Str.of_N (t / 10) ++ "."
                ++ Str.of_N (t mod 10) ++ " KB)")%string
      /\ shown_tenths (node_size (snd e)) t.

(** * Definitions for further properties *)

(** ** Ends of a string *)

Definition first_char (s : string) : option ascii :=
  match s with
  | EmptyString => None
  | String c _ => Some c
  end.

Fixpoint last_char (s : string) : option ascii :=
  match s with
  | EmptyString => None
  | String c EmptyString => Some c
  | String _ r => last_char r
  end.

(** The string neither starts nor ends with white space. *)
Definition trimmed (s : string) : Prop :=
  (forall c, first_char s = Some c -> Str.isspace c = false)
  /\ (forall c, last_char s = Some c -> Str.isspace c = false).

(** ** More worlds *)

Module MoreExamples.

(** A client whose every query succeeds and prints a line feed only. *)
Definition blank_git (argv : list string) (cwd : path) : CompletedProcess :=
  {| returncode := 0; stdout := nl |}.

Definition w5 : world :=
  {| fs := Dir true Examples.top_entries;
     exec := blank_git;
     resolve := fun a => [a];
     prog := "lensy.py" |}.

(** A working tree of a submodule, where ".git" is a file, and a directory
    that refuses listing. *)
Definition w6 : world :=
  {| fs := Dir true [ ("sub", Dir true [ (".git", File 30); ("a.txt", File 1) ]);
                      ("locked", Dir false [ ("secret", File 7) ]) ];
     exec := Examples.no_git;
     resolve := fun a => [a];
     prog := "lensy.py" |}.

(** The first world, the system listing the clone in the opposite order. *)
Definition w7 : world :=
  {| fs := Dir true [ ("repo", Dir true (rev Examples.repo_entries)) ];
     exec := Examples.no_git;
     resolve := fun a => [a];
     prog := "lensy.py" |}.

(** A directory that can be listed and holds a link without target, a
    directory that can be neither entered nor listed, and a directory with a
    link to a directory. *)
Definition w8 : world :=
  {| fs := Dir true [ ("mixed", Loose [ ("a.txt", File 1) ] [ "gone" ]);
                      ("sealed", Closed);
                      ("linked", Dir true [ ("docs", Link (Dir true [ ("x", File 5) ]));
                                            ("b.txt", Link (File 2048)) ]) ];
     exec := Examples.no_git;
     resolve := fun a => [a];
     prog := "lensy.py" |}.

(** The clone when the status query prints a modified file and then fails. *)
Definition noisy_status_git (argv : list string) (cwd : path) : CompletedProcess :=
  match argv with
  | [_; "status"; _] => {| returncode := 1; stdout := " M README.md" ++ nl |}
  | _ => Examples.some_git argv cwd
  end.

Definition w9 : world := Examples.world_with noisy_status_git.

(** Another clone at the same place: other sizes below the top, another
    internal directory, the entries listed in another order, and a client
    that words its answers differently. *)
Definition other_git (argv : list string) (cwd : path) : CompletedProcess :=
  match argv with
  | [_; "rev-parse"; _; _] => {| returncode := 0; stdout := "  main" |}
  | [_; "log"; _; _] => {| returncode := 0; stdout := "1a2b3c4 first" ++ nl |}
  | [_; "status"; _] => {| returncode := 0; stdout := "?? notes.txt" ++ nl |}
  | _ => {| returncode := 128; stdout := "no such remote" |}
  end.

Definition w10 : world :=
  {| fs := Dir true [ ("repo", Dir true [ (".git", Dir true []);
                                          ("src", Dir true [ ("lib.py", File 7000) ]);
                                          ("README.md", File 10) ]) ];
     exec := other_git;
     resolve := fun a => [a];
     prog := "lensy" |}.

End MoreExamples.

(** ** What the program may call *)

(** A call that stays with [root]: the test of existence and the listing of
    [root] itself, the client run in [root], a look at a child of [root] not
    named ".git", the listing of a directory at or beneath [root] on a way
    through no ".git". *)
Definition allowed (root : path) (c : call) : Prop :=
  match c with
  | Exists p => p = root
  | Iterdir p => p = root
  | Spawn argv cwd => cwd = root /\ exists args, argv = "git" :: args
  | IsDir p => exists name, p = root ++ [name] /\ name <> ".git"
  | Stat p => exists name, p = root ++ [name] /\ name <> ".git"
  | Scandir p => exists rel, p = root ++ rel /\ ~ In ".git" rel
  end.

(** The process after [format_summary] ended with [r], having made the calls
    [tr] after the test of existence. *)
Definition outcome_of (root : path) (r : result string) (tr : list call) : outcome :=
  match r with
  | Ok text =>
      {| printed := (text ++ nl)%string; errors := Silent; status := 0;
         calls := Exists root :: tr |}
  | Raise e =>
      {| printed := EmptyString; errors := Traceback e; status := 1;
         calls := Exists root :: tr |}
  end.


(** ** Directories the program can work in *)

(** The path denotes a directory a process can change to. *)
Definition can_enter (w : world) (p : path) : Prop :=
  exists n, lookup (fs w) p = Some n /\ chdir_error p n = None.

(** The first child, in the order of the list, that the overview cannot
    show: a link without target not named ".git". *)
Fixpoint first_broken (l : list child) : option string :=
  match l with
  | [] => None
  | (nm, o) :: l' =>
      if (nm =? ".git")%string then first_broken l'
      else
        match o with
        | Some _ => first_broken l'
        | None => Some nm
        end
  end.

(** A computation that behaves the same whatever calls came before. *)
Definition uniform {A} (m : M A) : Prop :=
  exists r tr, runs m r tr.

(** ** The summary from what the collectors gave *)

(** What the formatter ends with, from the path and from what its three
    collectors ended with: the first error, or the text. *)
Definition summary_result (root : path) (rg : result (option GitInfo))
  (ro : result (list string)) (rs : result Stats) : result string :=
  match rg with
  | Raise e => Raise e
  | Ok g =>
      match ro with
      | Raise e => Raise e
      | Ok l =>
          match rs with
          | Raise e => Raise e
          | Ok s => Ok (Str.join nl (summary_lines root g l s))
          end
      end
  end.

(** The calls of the formatter, from those of its collectors: each collector
    runs if the ones before it returned. *)
Definition summary_calls {A B} (rg : result A) (tg : list call)
  (ro : result B) (to ts : list call) : list call :=
  tg ++ match rg with
        | Raise _ => []
        | Ok _ => to ++ match ro with
                        | Raise _ => []
                        | Ok _ => ts
                        end
        end.

(** A computation that behaves the same whatever calls came before and
    makes only calls that satisfy [P]. *)
Definition confined {A} (P : call -> Prop) (m : M A) : Prop :=
  exists r tr, runs m r tr /\ Forall P tr.

(** A call that runs the client in [root]. *)
Definition spawns_git (root : path) (c : call) : Prop :=
  exists args, c = Spawn ("git" :: args) root.

(** * Properties *)

(** ** Running a computation *)

Lemma runs_ret {A} (a : A) : runs (ret a) (Ok a) [].
Proof. intros t. unfold ret. now rewrite app_nil_r. Qed.

Lemma runs_raise {A} (e : exn) : runs (@raise A e) (Raise e) [].
Proof. intros t. unfold raise. now rewrite app_nil_r. Qed.

Lemma runs_log (c : call) : runs (log c) (Ok tt) [c].
Proof. intros t. reflexivity. Qed.

Lemma runs_bind {A B} (m : M A) (k : A -> M B) a r tr1 tr2 :
  runs m (Ok a) tr1 -> runs (k a) r tr2 -> runs (bind m k) r (tr1 ++ tr2).
Proof.
  intros Hm Hk t. unfold bind. rewrite Hm, Hk. now rewrite app_assoc.
Qed.

Lemma runs_bind_raise {A B} (m : M A) (k : A -> M B) e tr :
  runs m (Raise e) tr -> runs (bind m k) (Raise e) tr.
Proof. intros Hm t. unfold bind. now rewrite Hm. Qed.

Lemma runs_log_then {A} (c : call) (m : M A) r tr :
  runs m r tr -> runs (log c ;;; m) r (c :: tr).
Proof. intros Hm. apply (runs_bind (log c) (fun _ => m) tt r [c] tr (runs_log c) Hm). Qed.

(** A computation has one result and one list of calls. *)
Lemma runs_unique {A} (m : M A) r1 r2 tr1 tr2 :
  runs m r1 tr1 -> runs m r2 tr2 -> r1 = r2 /\ tr1 = tr2.
Proof.
  intros H1 H2. specialize (H1 []). specialize (H2 []).
  rewrite H1 in H2. simpl in H2. now inversion H2.
Qed.

(** ** The version-control queries *)

Lemma is_directory_can_enter w p : is_directory w p -> can_enter w p.
Proof. intros (r & es & H). exists (Dir r es). now split. Qed.

Lemma run_git_enters w args root :
  can_enter w root ->
  runs (run_git w args root) (Ok (answer w root args)) [Spawn ("git" :: args) root].
Proof.
  intros (n & Hd & He). unfold run_git, subprocess_run, answer.
  change [Spawn ("git" :: args) root] with ([Spawn ("git" :: args) root] ++ []).
  eapply runs_bind.
  - rewrite Hd, He. apply runs_log_then, runs_ret.
  - destruct (returncode (exec w ("git" :: args) root) =? 0)%Z; apply runs_ret.
Qed.

Lemma run_git_runs w args root :
  is_directory w root ->
  runs (run_git w args root) (Ok (answer w root args)) [Spawn ("git" :: args) root].
Proof. intros H. now apply run_git_enters, is_directory_can_enter. Qed.

Lemma collect_git_info_enters w root :
  can_enter w root ->
  runs (collect_git_info w root) (Ok (git_info_of w root)) (git_calls w root).
Proof.
  intros Hd. unfold collect_git_info, git_info_of, git_calls.
  destruct (answer w root branch_args) as [b|] eqn:Hb.
  - change (map _ _) with
      ([Spawn ("git" :: branch_args) root] ++ [Spawn ("git" :: log_args) root]
        ++ [Spawn ("git" :: status_args) root]
        ++ [Spawn ("git" :: remote_args) root] ++ []).
    eapply runs_bind; [apply (run_git_enters w branch_args root Hd)|].
    rewrite Hb.
    eapply runs_bind; [apply (run_git_enters w log_args root Hd)|].
    eapply runs_bind; [apply (run_git_enters w status_args root Hd)|].
    eapply runs_bind; [apply (run_git_enters w remote_args root Hd)|].
    apply runs_ret.
  - change [Spawn ("git" :: branch_args) root]
      with ([Spawn ("git" :: branch_args) root] ++ []).
    eapply runs_bind; [apply (run_git_enters w branch_args root Hd)|].
    rewrite Hb. apply runs_ret.
Qed.

Lemma collect_git_info_runs w root :
  is_directory w root ->
  runs (collect_git_info w root) (Ok (git_info_of w root)) (git_calls w root).
Proof. intros H. now apply collect_git_info_enters, is_directory_can_enter. Qed.

(** A query in what cannot be entered raises what stops the process. *)
Lemma run_git_stopped w args root n e :
  lookup (fs w) root = Some n -> chdir_error root n = Some e ->
  runs (run_git w args root) (Raise e) [Spawn ("git" :: args) root].
Proof.
  intros Hd He. unfold run_git. apply runs_bind_raise.
  unfold subprocess_run. rewrite Hd, He. apply runs_log_then, runs_raise.
Qed.

Lemma run_git_missing w args root :
  lookup (fs w) root = None ->
  runs (run_git w args root) (Raise (FileNotFoundError root))
       [Spawn ("git" :: args) root].
Proof.
  intros Hd. unfold run_git. apply runs_bind_raise.
  unfold subprocess_run. rewrite Hd. apply runs_log_then, runs_raise.
Qed.

(** ** Sorting by name *)

Lemma string_leb_trans (s1 s2 s3 : string) :
  String.leb s1 s2 = true -> String.leb s2 s3 = true -> String.leb s1 s3 = true.
Proof.
  unfold String.leb.
  assert (H : forall a b c, String.compare a b <> Gt ->
                String.compare b c <> Gt -> String.compare a c <> Gt).
  { induction a as [|x a IH]; intros [|y b] [|z c]; simpl; try congruence.
    unfold Ascii.compare.
    destruct (N.compare_spec (N_of_ascii x) (N_of_ascii y));
      destruct (N.compare_spec (N_of_ascii y) (N_of_ascii z));
      destruct (N.compare_spec (N_of_ascii x) (N_of_ascii z));
      try congruence; try lia.
    apply IH. }
  intros H12 H23. specialize (H s1 s2 s3).
  destruct (String.compare s1 s2); destruct (String.compare s2 s3);
    destruct (String.compare s1 s3); try reflexivity; try discriminate;
    exfalso; apply H; congruence.
Qed.

Lemma insert_by_name_perm {A} (x : string * A) l :
  Permutation (insert_by_name x l) (x :: l).
Proof.
  induction l as [|y l IH]; simpl.
  - apply Permutation_refl.
  - destruct (String.leb (fst x) (fst y)).
    + apply Permutation_refl.
    + eapply perm_trans; [apply perm_skip, IH | apply perm_swap].
Qed.

Lemma sorted_perm {A} (l : list (string * A)) : Permutation (sorted l) l.
Proof.
  induction l as [|x l IH]; simpl.
  - apply perm_nil.
  - eapply perm_trans; [apply insert_by_name_perm | apply perm_skip, IH].
Qed.

Lemma insert_by_name_sorted {A} (x : string * A) l :
  StronglySorted name_le l -> StronglySorted name_le (insert_by_name x l).
Proof.
  induction 1 as [|y l Hs IH Hy]; simpl.
  - constructor; constructor.
  - destruct (String.leb (fst x) (fst y)) eqn:Hxy.
    + constructor.
      * now constructor.
      * constructor; [exact Hxy|].
        eapply Forall_impl; [|exact Hy].
        intros z Hz. unfold name_le in *. eapply string_leb_trans; eassumption.
    + constructor; [exact IH|].
      assert (Hyx : name_le y x).
      { unfold name_le. destruct (String.leb_total (fst x) (fst y)); congruence. }
      eapply Permutation_Forall; [apply Permutation_sym, insert_by_name_perm|].
      now constructor.
Qed.

Lemma sorted_sorted {A} (l : list (string * A)) : StronglySorted name_le (sorted l).
Proof.
  induction l as [|x l IH]; simpl.
  - constructor.
  - now apply insert_by_name_sorted.
Qed.

Lemma filter_perm {A} (f : A -> bool) (l l' : list A) :
  Permutation l l' -> Permutation (filter f l) (filter f l').
Proof.
  induction 1 as [| x l l' _ IH | x y l | l l' l'' _ IH1 _ IH2]; simpl.
  - apply perm_nil.
  - destruct (f x); [apply perm_skip|]; exact IH.
  - destruct (f x), (f y); try apply Permutation_refl. apply perm_swap.
  - eapply perm_trans; eassumption.
Qed.

Lemma filter_sorted {A} (f : string * A -> bool) l :
  StronglySorted name_le l -> StronglySorted name_le (filter f l).
Proof.
  induction 1 as [|y l Hs IH Hy]; simpl.
  - constructor.
  - destruct (f y); [|exact IH].
    constructor; [exact IH|].
    apply Forall_forall. intros z Hz. apply filter_In in Hz.
    rewrite Forall_forall in Hy. now apply Hy.
Qed.

(** Sorting looks at the names only. *)
Lemma sorted_map {A B} (g : A -> B) (l : list (string * A)) :
  sorted (map (fun e => (fst e, g (snd e))) l)
  = map (fun e => (fst e, g (snd e))) (sorted l).
Proof.
  assert (Hins : forall x l,
             insert_by_name (fst x, g (snd x)) (map (fun e => (fst e, g (snd e))) l)
             = map (fun e => (fst e, g (snd e))) (insert_by_name x l)).
  { intros x l0. induction l0 as [|y l0 IH]; [reflexivity|].
    cbn [map insert_by_name fst].
    destruct (String.leb (fst x) (fst y)); [reflexivity|].
    cbn [map]. now rewrite IH. }
  induction l as [|x l IH]; [reflexivity|].
  cbn [map sorted]. now rewrite IH, Hins.
Qed.

Lemma sorted_present es : sorted (present es) = present (sorted es).
Proof. apply (sorted_map Some). Qed.

(** ** The overview *)

Lemma is_dir_runs p o :
  runs (is_dir p o) (Ok (child_is_dir o)) [IsDir p].
Proof. unfold is_dir. apply runs_log_then, runs_ret. Qed.

Lemma objects_present es : objects (present es) = es.
Proof.
  unfold objects, present. induction es as [|[nm c] es IH]; [reflexivity|].
  cbn [map flat_map fst snd app]. now rewrite IH.
Qed.

Lemma statable_present es : statable (present es) = true.
Proof.
  unfold statable, present. induction es as [|[nm c] es IH]; [reflexivity|].
  cbn [map forallb fst snd]. exact IH.
Qed.

Lemma forallb_perm {A} (f : A -> bool) (l l' : list A) :
  Permutation l l' -> forallb f l = forallb f l'.
Proof.
  induction 1 as [| x l l' _ IH | x y l | l l' l'' _ IH1 _ IH2]; simpl.
  - reflexivity.
  - now rewrite IH.
  - now rewrite !andb_assoc, (andb_comm (f y) (f x)).
  - congruence.
Qed.

Lemma statable_sorted l : statable (sorted l) = statable l.
Proof. apply forallb_perm, sorted_perm. Qed.

Lemma overview_loop_runs root l entries :
  statable l = true ->
  runs (overview_loop root l entries)
       (Ok (entries ++ map entry_line (filter not_git (objects l))))
       (overview_calls root l).
Proof.
  revert entries. induction l as [|[name o] l IH]; intros entries Hst.
  - simpl. rewrite app_nil_r. apply runs_ret.
  - cbn [statable forallb snd] in Hst. apply andb_true_iff in Hst as [Ho Hst].
    change (overview_calls root ((name, o) :: l))
      with ((if not_git (name, o) then
               if child_is_dir o then [IsDir (root ++ [name])]
               else [IsDir (root ++ [name]); Stat (root ++ [name])]
             else []) ++ overview_calls root l).
    change (objects ((name, o) :: l))
      with ((match o with Some n => [(name, n)] | None => [] end) ++ objects l).
    replace (not_git (name, o)) with (negb (name =? ".git")%string) in * by reflexivity.
    cbn [overview_loop].
    destruct (name =? ".git")%string eqn:E; cbn [negb].
    + replace (filter not_git ((match o with Some n => [(name, n)] | None => [] end)
                               ++ objects l))
        with (filter not_git (objects l)).
      * now apply IH.
      * destruct o as [n|]; [|reflexivity].
        cbn [app filter]. unfold not_git at 2. cbn [fst]. now rewrite E.
    + destruct o as [n|]; [|discriminate Ho].
      cbn [app filter]. unfold not_git at 1. cbn [fst]. rewrite E. cbn [negb map].
      assert (Hs : runs (stat_size (root ++ [name]) (Some n)) (Ok (node_size n))
                     [Stat (root ++ [name])]).
      { unfold stat_size. apply runs_log_then, runs_ret. }
      pose proof (is_dir_runs (root ++ [name]) (Some n)) as Hd.
      unfold entry_line at 1. cbn [fst snd child_is_dir] in *.
      destruct (is_dir_node n) eqn:Hn.
      * eapply runs_bind; [exact Hd|]. cbv beta iota.
        replace (entries ++ dir_entry name :: map entry_line (filter not_git (objects l)))
          with ((entries ++ [dir_entry name]) ++ map entry_line (filter not_git (objects l)))
          by now rewrite <- app_assoc.
        now apply IH.
      * change ([IsDir (root ++ [name]); Stat (root ++ [name])] ++ overview_calls root l)
          with ([IsDir (root ++ [name])] ++ [Stat (root ++ [name])] ++ overview_calls root l).
        eapply runs_bind; [exact Hd|]. cbv beta iota.
        eapply runs_bind; [exact Hs|].
        replace (entries ++ file_entry name (node_size n)
                   :: map entry_line (filter not_git (objects l)))
          with ((entries ++ [file_entry name (node_size n)])
                  ++ map entry_line (filter not_git (objects l)))
          by now rewrite <- app_assoc.
        now apply IH.
Qed.

(** The loop dies on the first link without target it has to show. *)
Lemma overview_loop_raises root l entries nm :
  first_broken l = Some nm ->
  exists tr,
    runs (overview_loop root l entries) (Raise (FileNotFoundError (root ++ [nm]))) tr.
Proof.
  revert entries. induction l as [|[name o] l IH]; intros entries Hb; [discriminate|].
  cbn [first_broken] in Hb. cbn [overview_loop].
  destruct (name =? ".git")%string; [now apply IH|].
  pose proof (is_dir_runs (root ++ [name]) o) as Hd.
  destruct o as [n|].
  - cbn [child_is_dir] in Hd. destruct (is_dir_node n) eqn:Hn.
    + destruct (IH (entries ++ [dir_entry name]) Hb) as (tr & Hr).
      eexists. eapply runs_bind; [exact Hd | exact Hr].
    + destruct (IH (entries ++ [file_entry name (node_size n)]) Hb) as (tr & Hr).
      eexists. eapply runs_bind; [exact Hd|]. cbv beta iota.
      eapply runs_bind; [|exact Hr].
      unfold stat_size. apply runs_log_then, runs_ret.
  - injection Hb as <-. eexists.
    eapply runs_bind; [exact Hd|]. cbn [child_is_dir]. cbv beta iota.
    apply runs_bind_raise. unfold stat_size. apply runs_log_then, runs_raise.
Qed.


Lemma listing_enters p n l : listing p n = Ok l -> chdir_error p n = None.
Proof.
  induction n as [sz | r es _ | es ds _ | t IH |] using node_ind; cbn;
    try discriminate; try reflexivity.
  exact IH.
Qed.

Lemma iterdir_runs w root n l :
  lookup (fs w) root = Some n -> listing root n = Ok l ->
  runs (iterdir w root) (Ok l) [Iterdir root].
Proof.
  intros Hd Hl. unfold iterdir. rewrite Hd, Hl. apply runs_log_then, runs_ret.
Qed.

Lemma iterdir_refused w root n e :
  lookup (fs w) root = Some n -> listing root n = Raise e ->
  runs (iterdir w root) (Raise e) [Iterdir root].
Proof.
  intros Hd Hl. unfold iterdir. rewrite Hd, Hl. apply runs_log_then, runs_raise.
Qed.

Lemma collect_file_overview_listable w root n l :
  lookup (fs w) root = Some n -> listing root n = Ok l -> statable l = true ->
  runs (collect_file_overview w root)
       (Ok (map entry_line (filter not_git (objects (sorted l)))))
       (Iterdir root :: overview_calls root (sorted l)).
Proof.
  intros Hd Hl Hst. unfold collect_file_overview.
  change (Iterdir root :: overview_calls root (sorted l))
    with ([Iterdir root] ++ overview_calls root (sorted l)).
  eapply runs_bind; [apply (iterdir_runs w root n l Hd Hl)|].
  apply (overview_loop_runs root (sorted l) []). now rewrite statable_sorted.
Qed.

Lemma collect_file_overview_runs w root es :
  lookup (fs w) root = Some (Dir true es) ->
  runs (collect_file_overview w root)
       (Ok (map entry_line (filter not_git (sorted es))))
       (Iterdir root :: overview_calls root (present (sorted es))).
Proof.
  intros Hd.
  pose proof (collect_file_overview_listable w root (Dir true es) (present es) Hd
                eq_refl (statable_present es)) as H.
  now rewrite sorted_present, objects_present in H.
Qed.

Lemma collect_file_overview_refused w root n e :
  lookup (fs w) root = Some n -> listing root n = Raise e ->
  runs (collect_file_overview w root) (Raise e) [Iterdir root].
Proof.
  intros Hd Hl. unfold collect_file_overview. apply runs_bind_raise.
  now apply (iterdir_refused w root n).
Qed.

Lemma collect_file_overview_unreadable w root es :
  lookup (fs w) root = Some (Dir false es) ->
  runs (collect_file_overview w root) (Raise (PermissionError root)) [Iterdir root].
Proof. intros Hd. now apply (collect_file_overview_refused w root (Dir false es)). Qed.

(** ** The walk *)

Lemma os_walk_file {A} (body : path -> list string -> list string -> A -> A * list string)
  top sz acc :
  runs (os_walk body top (File sz) acc) (Ok acc) [Scandir top].
Proof. cbn [os_walk]. apply runs_log_then, runs_ret. Qed.

Lemma os_walk_unreadable {A} (body : path -> list string -> list string -> A -> A * list string)
  top es acc :
  runs (os_walk body top (Dir false es) acc) (Ok acc) [Scandir top].
Proof. cbn [os_walk]. apply runs_log_then, runs_ret. Qed.

Lemma os_walk_closed {A} (body : path -> list string -> list string -> A -> A * list string)
  top acc :
  runs (os_walk body top Closed acc) (Ok acc) [Scandir top].
Proof. cbn [os_walk]. apply runs_log_then, runs_ret. Qed.

Lemma os_walk_link {A} (body : path -> list string -> list string -> A -> A * list string)
  top t acc :
  runs (os_walk body top (Link t) acc) (Ok acc) [].
Proof. cbn [os_walk]. apply runs_ret. Qed.

Lemma os_walk_dir {A} (body : path -> list string -> list string -> A -> A * list string)
  top es acc :
  os_walk body top (Dir true es) acc =
  (log (Scandir top) ;;;
   descend_with (os_walk body) top es []
     (snd (body top (dir_names es) (nondir_names es) acc))
     (fst (body top (dir_names es) (nondir_names es) acc))).
Proof.
  cbn [os_walk]. destruct (body top (dir_names es) (nondir_names es) acc).
  reflexivity.
Qed.

Lemma os_walk_loose {A} (body : path -> list string -> list string -> A -> A * list string)
  top es links acc :
  os_walk body top (Loose es links) acc =
  (log (Scandir top) ;;;
   descend_with (os_walk body) top es links
     (snd (body top (dir_names es) (nondir_names es ++ links) acc))
     (fst (body top (dir_names es) (nondir_names es ++ links) acc))).
Proof.
  cbn [os_walk]. destruct (body top (dir_names es) (nondir_names es ++ links) acc).
  reflexivity.
Qed.

Lemma visit_found {A} (walk : path -> node -> A -> M A) top links d acc es c :
  find_child d es = Some c ->
  visit_with walk top links d acc es = walk (top ++ [d]) c acc.
Proof.
  induction es as [|[nm c'] es IH]; simpl; [discriminate|].
  destruct (nm =? d)%string.
  - now intros [= ->].
  - exact IH.
Qed.

(** ** Counting *)

Lemma stats_eq (a b : Stats) : files a = files b -> dirs a = dirs b -> a = b.
Proof. destruct a, b; simpl; intros; subst; reflexivity. Qed.

Lemma add_no_stats a : add_stats a no_stats = a.
Proof. apply stats_eq; simpl; lia. Qed.

Lemma add_stats_assoc a b c :
  add_stats (add_stats a b) c = add_stats a (add_stats b c).
Proof. apply stats_eq; simpl; lia. Qed.

Lemma unique_find_child es nm c :
  unique (map fst es) = true -> In (nm, c) es -> find_child nm es = Some c.
Proof.
  induction es as [|[nm' c'] es IH]; simpl; [easy|].
  intros Hu [Heq|Hin].
  - inversion Heq; subst. now rewrite String.eqb_refl.
  - apply andb_true_iff in Hu as [Hn Hu].
    destruct (nm' =? nm)%string eqn:E; [|now apply IH].
    apply String.eqb_eq in E; subst nm'. exfalso.
    apply negb_true_iff in Hn.
    assert (Hex : existsb (String.eqb nm) (map fst es) = true).
    { apply existsb_exists. exists nm. split; [|apply String.eqb_refl].
      apply in_map_iff. now exists (nm, c). }
    congruence.
Qed.

Lemma unique_app_l (a b : list string) : unique (a ++ b) = true -> unique a = true.
Proof.
  induction a as [|x a IH]; simpl; [reflexivity|].
  intros H. apply andb_true_iff in H as [Hx Ha].
  apply andb_true_iff. split; [|now apply IH].
  apply negb_true_iff. apply negb_true_iff in Hx.
  rewrite existsb_app in Hx. now apply orb_false_iff in Hx as [Hx _].
Qed.

Lemma kept_dir_names es :
  filter (fun d => negb (d =? ".git")%string) (dir_names es)
  = map fst (filter kept es).
Proof.
  unfold dir_names. induction es as [|[nm c] es IH]; [reflexivity|].
  cbn [filter]. unfold kept at 1, not_git at 1. cbn [fst snd].
  destruct (is_dir_node c); cbn [andb map filter fst].
  - destruct (nm =? ".git")%string; cbn [negb map fst]; now rewrite IH.
  - exact IH.
Qed.

Lemma is_dir_node_prune n : is_dir_node (prune n) = is_dir_node n.
Proof. now destruct n. Qed.

(** Nothing is counted beneath what is not a directory. *)
Lemma count_prune_nondir n : is_dir_node n = false -> count (prune n) = no_stats.
Proof. destruct n; try discriminate; reflexivity. Qed.

Lemma total_cons x l : total (x :: l) = add_stats x (total l).
Proof. reflexivity. Qed.

Lemma is_git_dir_pair nm c :
  is_git_dir (nm, c) = (nm =? ".git")%string && is_dir_node c.
Proof. reflexivity. Qed.

Lemma kept_pair nm c :
  kept (nm, c) = is_dir_node c && negb (nm =? ".git")%string.
Proof. reflexivity. Qed.

Lemma count_prune_dir es :
  count (prune (Dir true es))
  = add_stats
      {| files := N.of_nat (List.length (nondir_names es));
         dirs := N.of_nat (List.length (filter kept es)) |}
      (total (map (fun e => count (prune (snd e))) (filter kept es))).
Proof.
  cbn [prune count]. unfold nondir_names.
  induction es as [|[nm c] es IH].
  - now apply stats_eq.
  - cbn [flat_map filter]. rewrite is_git_dir_pair, kept_pair. cbn [snd].
    destruct (is_dir_node c) eqn:Hc; destruct (nm =? ".git")%string eqn:E;
      cbn [fst snd andb negb app map List.length];
      rewrite ?total_cons, ?IH; unfold unit_stats; cbn [fst snd];
      rewrite ?is_dir_node_prune, ?Hc, ?(count_prune_nondir c Hc);
      apply stats_eq; cbn [files dirs add_stats no_stats];
      rewrite ?Nat2N.inj_succ; lia.
Qed.

Lemma count_prune_loose es ds :
  count (prune (Loose es ds))
  = add_stats (count (prune (Dir true es)))
      {| files := N.of_nat (List.length ds); dirs := 0 |}.
Proof. reflexivity. Qed.

Lemma beneath_child top d tr :
  d <> ".git" -> Forall (beneath (top ++ [d])) tr -> Forall (beneath top) tr.
Proof.
  intros Hd. apply Forall_impl. intros c (rel & -> & Hrel).
  exists (d :: rel). split.
  - now rewrite <- app_assoc.
  - intros [H|H]; [now apply Hd | now apply Hrel].
Qed.

Lemma descend_runs top es links l :
  unique (map fst es) = true ->
  Forall (fun e => walk_counts_pruned (snd e)) l ->
  (forall e, In e l -> In e es /\ not_git e = true) ->
  forall acc,
  exists tr,
    runs (descend_with (os_walk stats_body) top es links (map fst l) acc)
         (Ok (add_stats acc (total (map (fun e => count (prune (snd e))) l)))) tr
    /\ Forall (beneath top) tr.
Proof.
  intros Hu. induction l as [|[nm c] l IH]; intros Hw Hin acc.
  - exists []. split; [|constructor]. cbn. rewrite add_no_stats. apply runs_ret.
  - inversion Hw as [|? ? Hc Hl]; subst.
    destruct (Hin (nm, c) (or_introl eq_refl)) as [Hes Hng].
    destruct (Hc (top ++ [nm]) acc) as (tr1 & Hr1 & Hb1).
    destruct (IH Hl (fun e He => Hin e (or_intror He))
                (add_stats acc (count (prune c)))) as (tr2 & Hr2 & Hb2).
    exists (tr1 ++ tr2). split.
    + cbn [map descend_with fst]. eapply runs_bind.
      * rewrite (visit_found _ top links nm acc es c (unique_find_child es nm c Hu Hes)).
        exact Hr1.
      * cbn [snd total fold_right]. rewrite <- add_stats_assoc. exact Hr2.
    + apply Forall_app. split; [|exact Hb2].
      apply (beneath_child top nm); [|exact Hb1].
      unfold not_git in Hng. cbn [fst] in Hng.
      apply negb_true_iff, String.eqb_neq in Hng. exact Hng.
Qed.

Lemma scandir_beneath top : Forall (beneath top) [Scandir top].
Proof. constructor; [|constructor]. exists []. now rewrite app_nil_r. Qed.

(** The walk of one listable directory whose children are walked as they
    should. *)
Lemma walk_entries top es links extra acc :
  unique (map fst es) = true ->
  Forall (fun e => wf (snd e) = true -> walk_counts_pruned (snd e)) es ->
  forallb (fun e => wf (snd e)) es = true ->
  exists tr,
    runs (descend_with (os_walk stats_body) top es links
            (snd (stats_body top (dir_names es) (nondir_names es ++ extra) acc))
            (fst (stats_body top (dir_names es) (nondir_names es ++ extra) acc)))
         (Ok (add_stats acc
                (add_stats (count (prune (Dir true es)))
                   {| files := N.of_nat (List.length extra); dirs := 0 |}))) tr
    /\ Forall (beneath top) tr.
Proof.
  intros Hu IH Hall.
  rewrite forallb_forall in Hall. rewrite Forall_forall in IH.
  assert (Hbody : stats_body top (dir_names es) (nondir_names es ++ extra) acc
                  = ({| files := files acc
                                 + N.of_nat (List.length (nondir_names es ++ extra));
                        dirs := dirs acc + N.of_nat (List.length (filter kept es)) |},
                     map fst (filter kept es))).
  { unfold stats_body. now rewrite kept_dir_names, length_map. }
  rewrite Hbody. cbn [fst snd].
  destruct (descend_runs top es links (filter kept es) Hu) with
    (acc := {| files := files acc + N.of_nat (List.length (nondir_names es ++ extra));
               dirs := dirs acc + N.of_nat (List.length (filter kept es)) |})
    as (tr & Hr & Hb).
  { apply Forall_forall. intros e He. apply filter_In in He as [He _].
    apply IH; [exact He | now apply Hall]. }
  { intros e He. apply filter_In in He as [He Hk]. split; [exact He|].
    unfold kept in Hk. now apply andb_true_iff in Hk. }
  exists tr. split; [|exact Hb].
  replace (add_stats acc _) with
    (add_stats
       {| files := files acc + N.of_nat (List.length (nondir_names es ++ extra));
          dirs := dirs acc + N.of_nat (List.length (filter kept es)) |}
       (total (map (fun e => count (prune (snd e))) (filter kept es)))); [exact Hr|].
  rewrite count_prune_dir, length_app.
  apply stats_eq; cbn [files dirs add_stats]; rewrite ?Nat2N.inj_add; lia.
Qed.

Lemma os_walk_counts_pruned n : wf n = true -> walk_counts_pruned n.
Proof.
  induction n as [sz | r es IH | es ds IH | t _ |] using node_ind;
    intros Hwf top acc.
  - exists [Scandir top]. split; [|apply scandir_beneath].
    cbn [prune count]. rewrite add_no_stats. apply os_walk_file.
  - destruct r.
    2:{ exists [Scandir top]. split; [|apply scandir_beneath].
        cbn [prune count]. rewrite add_no_stats. apply os_walk_unreadable. }
    cbn [wf] in Hwf. apply andb_true_iff in Hwf as [Hu Hall].
    destruct (walk_entries top es [] [] acc Hu IH Hall) as (tr & Hr & Hb).
    exists (Scandir top :: tr). split.
    + rewrite os_walk_dir. apply runs_log_then.
      rewrite app_nil_r in Hr.
      replace (add_stats acc (count (prune (Dir true es))))
        with (add_stats acc
                (add_stats (count (prune (Dir true es)))
                   {| files := N.of_nat (List.length (@nil string)); dirs := 0 |}));
        [exact Hr|].
      apply stats_eq; cbn [files dirs add_stats List.length]; lia.
    + constructor; [|exact Hb]. exists []. now rewrite app_nil_r.
  - cbn [wf] in Hwf. apply andb_true_iff in Hwf as [Hu Hall].
    apply unique_app_l in Hu.
    destruct (walk_entries top es ds ds acc Hu IH Hall) as (tr & Hr & Hb).
    exists (Scandir top :: tr). split.
    + rewrite os_walk_loose. apply runs_log_then.
      rewrite count_prune_loose. exact Hr.
    + constructor; [|exact Hb]. exists []. now rewrite app_nil_r.
  - exists []. split; [|constructor].
    cbn [prune count]. rewrite add_no_stats. apply os_walk_link.
  - exists [Scandir top]. split; [|apply scandir_beneath].
    cbn [prune count]. rewrite add_no_stats. apply os_walk_closed.
Qed.

(** The walk raises nothing and ends, whatever the loop body does. *)
Lemma os_walk_total {A}
  (body : path -> list string -> list string -> A -> A * list string) n :
  forall top acc, exists a tr, runs (os_walk body top n acc) (Ok a) tr.
Proof.
  assert (Hvisit : forall top es links,
             Forall (fun e => forall top acc,
                       exists a tr, runs (os_walk body top (snd e) acc) (Ok a) tr) es ->
             forall d a,
             exists a' tr, runs (visit_with (os_walk body) top links d a es) (Ok a') tr).
  { intros top es links Hes d a.
    induction Hes as [|[nm c] cs Hc _ IHcs]; cbn [visit_with].
    - destruct (existsb (String.eqb d) links).
      + exists a, []. apply runs_ret.
      + exists a, [Scandir (top ++ [d])]. apply runs_log_then, runs_ret.
    - destruct (nm =? d)%string; [apply Hc | exact IHcs]. }
  assert (Hdesc : forall top es links,
             Forall (fun e => forall top acc,
                       exists a tr, runs (os_walk body top (snd e) acc) (Ok a) tr) es ->
             forall ds a,
             exists a' tr, runs (descend_with (os_walk body) top es links ds a) (Ok a') tr).
  { intros top es links Hes. induction ds as [|d ds IHds]; intros a; cbn [descend_with].
    - exists a, []. apply runs_ret.
    - destruct (Hvisit top es links Hes d a) as (a1 & tr1 & H1).
      destruct (IHds a1) as (a2 & tr2 & H2).
      exists a2, (tr1 ++ tr2). eapply runs_bind; [exact H1 | exact H2]. }
  induction n as [sz | r es IH | es ds IH | t _ |] using node_ind; intros top acc.
  - exists acc, [Scandir top]. apply os_walk_file.
  - destruct r; [|exists acc, [Scandir top]; apply os_walk_unreadable].
    rewrite os_walk_dir.
    destruct (Hdesc top es [] IH
                (snd (body top (dir_names es) (nondir_names es) acc))
                (fst (body top (dir_names es) (nondir_names es) acc)))
      as (a & tr & H).
    exists a, (Scandir top :: tr). now apply runs_log_then.
  - rewrite os_walk_loose.
    destruct (Hdesc top es ds IH
                (snd (body top (dir_names es) (nondir_names es ++ ds) acc))
                (fst (body top (dir_names es) (nondir_names es ++ ds) acc)))
      as (a & tr & H).
    exists a, (Scandir top :: tr). now apply runs_log_then.
  - exists acc, []. apply os_walk_link.
  - exists acc, [Scandir top]. apply os_walk_closed.
Qed.

Lemma collect_stats_total w root :
  exists stats tr, runs (collect_stats w root) (Ok stats) tr.
Proof.
  unfold collect_stats. destruct (lookup (fs w) root) as [n|].
  - apply os_walk_total.
  - exists {| files := 0; dirs := 0 |}, [Scandir root].
    apply runs_log_then, runs_ret.
Qed.

(** ** The summary *)

Lemma format_summary_listable w root n l :
  lookup (fs w) root = Some n -> listing root n = Ok l -> statable l = true ->
  exists stats tr,
    runs (collect_stats w root) (Ok stats) tr /\
    runs (format_summary w root)
         (Ok (Str.join nl
                (summary_lines root (git_info_of w root)
                   (map entry_line (filter not_git (objects (sorted l)))) stats)))
         (git_calls w root ++ (Iterdir root :: overview_calls root (sorted l)) ++ tr).
Proof.
  intros Hd Hl Hst. destruct (collect_stats_total w root) as (stats & tr & Hs).
  exists stats, tr. split; [exact Hs|].
  unfold format_summary.
  eapply runs_bind.
  { apply collect_git_info_enters. exists n. split; [exact Hd|].
    now apply (listing_enters root n l). }
  eapply runs_bind; [apply (collect_file_overview_listable w root n l Hd Hl Hst)|].
  rewrite <- (app_nil_r tr).
  eapply runs_bind; [exact Hs | apply runs_ret].
Qed.

Lemma format_summary_runs w root es :
  lookup (fs w) root = Some (Dir true es) ->
  exists stats tr,
    runs (collect_stats w root) (Ok stats) tr /\
    runs (format_summary w root)
         (Ok (Str.join nl
                (summary_lines root (git_info_of w root)
                   (map entry_line (filter not_git (sorted es))) stats)))
         (git_calls w root
          ++ (Iterdir root :: overview_calls root (present (sorted es))) ++ tr).
Proof.
  intros Hd.
  destruct (format_summary_listable w root (Dir true es) (present es) Hd eq_refl
              (statable_present es)) as (stats & tr & Hs & Hf).
  exists stats, tr. split; [exact Hs|].
  now rewrite sorted_present, objects_present in Hf.
Qed.

Lemma format_summary_unreadable w root es :
  lookup (fs w) root = Some (Dir false es) ->
  runs (format_summary w root) (Raise (PermissionError root))
       (git_calls w root ++ [Iterdir root]).
Proof.
  intros Hd. unfold format_summary.
  eapply runs_bind; [apply collect_git_info_runs; now exists false, es|].
  apply runs_bind_raise. now apply (collect_file_overview_unreadable w root es).
Qed.

(** ** Blank strings *)

Lemma lstrip_blank s : Str.lstrip s = "" <-> Str.blank s = true.
Proof.
  induction s as [|c s IH]; simpl; [tauto|].
  destruct (Str.isspace c); simpl; [exact IH|].
  split; discriminate.
Qed.

Lemma lstrip_head s c r : Str.lstrip s = String c r -> Str.isspace c = false.
Proof.
  induction s as [|c' s IH]; simpl; [discriminate|].
  destruct (Str.isspace c') eqn:E; [exact IH|].
  now intros [= <- _].
Qed.

Lemma rstrip_head c r :
  Str.isspace c = false -> exists r', Str.rstrip (String c r) = String c r'.
Proof.
  intros Hc. simpl. destruct (Str.rstrip r).
  - rewrite Hc. now exists "".
  - eexists. reflexivity.
Qed.

Lemma strip_blank s : Str.strip s = "" <-> Str.blank s = true.
Proof.
  unfold Str.strip. rewrite <- lstrip_blank.
  destruct (Str.lstrip s) as [|c r] eqn:E; [simpl; tauto|].
  destruct (rstrip_head c r (lstrip_head s c r E)) as (r' & ->).
  split; discriminate.
Qed.

Lemma strip_strip_blank s : Str.strip (Str.strip s) = "" <-> Str.blank s = true.
Proof.
  rewrite <- (strip_blank s). unfold Str.strip at 1 2.
  destruct (Str.lstrip s) as [|c r] eqn:E.
  - simpl. rewrite (proj2 (strip_blank s)); [tauto|]. now apply lstrip_blank.
  - pose proof (lstrip_head s c r E) as Hc.
    destruct (rstrip_head c r Hc) as (r' & Hr). rewrite Hr.
    simpl Str.lstrip. rewrite Hc.
    destruct (rstrip_head c r' Hc) as (r'' & ->).
    unfold Str.strip. rewrite E, Hr. split; discriminate.
Qed.

(** A successful status query makes the tree dirty exactly when its output
    has a character that is not white space. *)
Lemma dirty_iff_not_blank out :
  Str.truthy (Str.strip (Str.or_else (Some (Str.strip out)) "")) = negb (Str.blank out).
Proof.
  assert (Hor : Str.or_else (Some (Str.strip out)) "" = Str.strip out).
  { unfold Str.or_else, Str.truthy.
    destruct (Str.strip out =? "")%string eqn:E; simpl; [|reflexivity].
    apply String.eqb_eq in E. now rewrite E. }
  rewrite Hor. unfold Str.truthy. f_equal.
  destruct (Str.blank out) eqn:B.
  - apply String.eqb_eq. now apply strip_strip_blank.
  - apply String.eqb_neq. intros H. apply strip_strip_blank in H. congruence.
Qed.

(** ** The lines of a text *)

Lemma split_lines_one s : Str.one_line s = true -> Str.split_lines s = [s].
Proof.
  induction s as [|c s IH]; simpl; [reflexivity|].
  destruct (Ascii.eqb c Str.newline); simpl; [discriminate|].
  intros H. now rewrite (IH H).
Qed.

Lemma split_lines_app s rest :
  Str.one_line s = true ->
  Str.split_lines (s ++ String Str.newline rest) = s :: Str.split_lines rest.
Proof.
  induction s as [|c s IH]; simpl.
  - intros _. reflexivity.
  - destruct (Ascii.eqb c Str.newline); simpl; [discriminate|].
    intros H. now rewrite (IH H).
Qed.

(** Joining lines that hold no line feed and splitting the text again gives
    the lines back: the elements of the list the formatter joins are the
    lines of its text as long as no name holds a line feed. *)
Lemma split_lines_join lines :
  lines <> [] ->
  Forall (fun l => Str.one_line l = true) lines ->
  Str.split_lines (Str.join nl lines) = lines.
Proof.
  induction lines as [|l lines IH]; [congruence|]. intros _ Hall.
  inversion Hall as [|? ? Hl Hrest]; subst.
  destruct lines as [|l' lines].
  - simpl. now apply split_lines_one.
  - change (Str.join nl (l :: l' :: lines))
      with (l ++ String Str.newline (Str.join nl (l' :: lines)))%string.
    rewrite (split_lines_app _ _ Hl). f_equal. apply IH; [discriminate | exact Hrest].
Qed.

(** ** Lines that cannot be mistaken for one another *)

Ltac other_prefix :=
  let post := fresh "post" in
  let H := fresh "H" in
  intros (post & H); simpl in H; discriminate H.

Ltac not_metadata :=
  let H := fresh "H" in
  intros [H | [H | [H | H]]]; revert H; other_prefix.

Lemma path_line_not_metadata root : ~ metadata_line (path_line root).
Proof. unfold path_line. not_metadata. Qed.

Lemma fallback_line_not_metadata : ~ metadata_line fallback_line.
Proof. unfold fallback_line. not_metadata. Qed.

Lemma empty_line_not_metadata : ~ metadata_line "".
Proof. not_metadata. Qed.

Lemma contents_line_not_metadata stats : ~ metadata_line (contents_line stats).
Proof. unfold contents_line. not_metadata. Qed.

Lemma bullets_not_metadata listing : Forall (fun l => ~ metadata_line l) (bullets listing).
Proof.
  apply Forall_forall. intros l Hl. unfold bullets in Hl.
  apply in_map_iff in Hl as (e & <- & _). not_metadata.
Qed.

Lemma summary_lines_none root listing stats :
  summary_lines root None listing stats
  = [path_line root; fallback_line; ""; contents_line stats] ++ bullets listing.
Proof. reflexivity. Qed.

Lemma summary_lines_some root gi listing stats :
  summary_lines root (Some gi) listing stats
  = [ path_line root;
      ("Branch: " ++ branch gi)%string;
      ("Latest commit: " ++ latest_commit gi)%string;
      ("Remote: " ++ Str.or_else (remote gi) "n/a")%string;
      ("Working tree: " ++ (if dirty gi then "dirty" else "clean"))%string;
      "";
      contents_line stats ] ++ bullets listing.
Proof. reflexivity. Qed.

Lemma answer_failed w root args :
  returncode (exec w ("git" :: args) root) <> 0%Z -> answer w root args = None.
Proof.
  intros H. unfold answer.
  destruct (returncode (exec w ("git" :: args) root) =? 0)%Z eqn:E; [|reflexivity].
  apply Z.eqb_eq in E. contradiction.
Qed.

Lemma answer_succeeded w root args :
  returncode (exec w ("git" :: args) root) = 0%Z ->
  answer w root args = Some (Str.strip (stdout (exec w ("git" :: args) root))).
Proof. intros H. unfold answer. now rewrite H. Qed.

(** ** The claims *)

(** C3. In an existing directory where the branch query fails, the collector
    gives no metadata; the summary, which exists as soon as the directory can
    be listed, is the path line, the line "Git: n/a (not a repository)", an
    empty line, the contents line and the bullets, and none of its lines is a
    branch, latest-commit, remote or working-tree line; these are the lines
    of the text when no path or entry name holds a line feed. A directory
    that cannot be listed gives no summary at all. *)
Theorem not_a_repository_fallback (w : world) (root : path) r es :
  lookup (fs w) root = Some (Dir r es) ->
  returncode (exec w ("git" :: branch_args) root) <> 0%Z ->
  runs (collect_git_info w root) (Ok None) [Spawn ("git" :: branch_args) root]
  /\ (r = true ->
      exists listing stats tr_overview tr_stats tr,
        runs (collect_file_overview w root) (Ok listing) tr_overview /\
        runs (collect_stats w root) (Ok stats) tr_stats /\
        let lines := [path_line root; "Git: n/a (not a repository)"; "";
                      contents_line stats] ++ bullets listing in
        runs (format_summary w root) (Ok (Str.join nl lines)) tr /\
        In "Git: n/a (not a repository)" lines /\
        Forall (fun l => ~ metadata_line l) lines /\
        (Forall (fun l => Str.one_line l = true) lines ->
         Str.split_lines (Str.join nl lines) = lines))
  /\ (r = false ->
      exists tr, runs (format_summary w root) (Raise (PermissionError root)) tr).
Proof.
  intros Hd Hb.
  assert (Hdir : is_directory w root) by (now exists r, es).
  pose proof (answer_failed w root branch_args Hb) as Ha.
  pose proof (collect_git_info_runs w root Hdir) as Hg.
  unfold git_info_of, git_calls in Hg. rewrite Ha in Hg.
  split; [exact Hg|]. split.
  - intros ->.
    destruct (format_summary_runs w root es Hd) as (stats & tr & Hs & Hf).
    unfold git_info_of in Hf. rewrite Ha in Hf. rewrite summary_lines_none in Hf.
    exists (map entry_line (filter not_git (sorted es))), stats.
    eexists. exists tr. eexists.
    split; [apply (collect_file_overview_runs w root es Hd)|].
    split; [exact Hs|]. split; [exact Hf|]. split; [|split].
    + right. left. reflexivity.
    + apply Forall_app. split; [|apply bullets_not_metadata].
      repeat constructor.
      * apply path_line_not_metadata.
      * apply fallback_line_not_metadata.
      * apply empty_line_not_metadata.
      * apply contents_line_not_metadata.
    + apply split_lines_join. discriminate.
  - intros ->. eexists. apply (format_summary_unreadable w root es Hd).
Qed.

Lemma not_a_repository_fallback_witness :
  lookup (fs Examples.w0) ["repo"] = Some (Dir true Examples.repo_entries)
  /\ returncode (exec Examples.w0 ("git" :: branch_args) ["repo"]) <> 0%Z
  /\ runs (collect_git_info Examples.w0 ["repo"]) (Ok None)
          [Spawn ("git" :: branch_args) ["repo"]].
Proof.
  assert (H1 : lookup (fs Examples.w0) ["repo"] = Some (Dir true Examples.repo_entries))
    by reflexivity.
  assert (H2 : returncode (exec Examples.w0 ("git" :: branch_args) ["repo"]) <> 0%Z)
    by (simpl; lia).
  split; [exact H1|]. split; [exact H2|].
  exact (proj1 (not_a_repository_fallback Examples.w0 ["repo"] true
                  Examples.repo_entries H1 H2)).
Defined.



(** C5, as the claim has it, in a clone whose status query fails after
    printing a modified file: the output of the query has characters that
    are not white space, and the working-tree line reads "Working tree:
    clean". *)
Lemma failed_status_output_is_ignored :
  returncode (exec MoreExamples.w9 ("git" :: branch_args) ["repo"]) = 0%Z
  /\ Str.blank (stdout (exec MoreExamples.w9 ("git" :: status_args) ["repo"])) = false
  /\ value (format_summary MoreExamples.w9 ["repo"])
     = Ok (Str.join nl
             [ "Path: /repo";
               "Branch: main";
               "Latest commit: 1a2b3c4 first";
               "Remote: n/a";
               "Working tree: clean";
               EmptyString;
               "Contents: 2 files in 1 directories";
               "  - README.md (0.0 KB)";
               "  - src/" ]).
Proof. repeat split; reflexivity. Qed.

(** C5, amended. In a directory of a repository, the collector takes the
    working tree for dirty exactly when the status query succeeds with an
    output that has a character that is not white space. When the directory
    can be listed and its children answer [stat], the summary is the join of
    the lines given here, the fifth of which is the only one that starts with
    "Working tree: ": it reads "Working tree: dirty" exactly when the status
    query succeeds with such an output, and "Working tree: clean" exactly
    otherwise, that is when the query fails, whatever it printed, or its
    output is blank. *)
Theorem working_tree_line_follows_status (w : world) (root : path) n l :
  lookup (fs w) root = Some n ->
  listing root n = Ok l ->
  statable l = true ->
  returncode (exec w ("git" :: branch_args) root) = 0%Z ->
  let status := exec w ("git" :: status_args) root in
  let changed := (returncode status =? 0)%Z && negb (Str.blank (stdout status)) in
  let line := if changed then "Working tree: dirty" else "Working tree: clean" in
  (exists gi tr,
      runs (collect_git_info w root) (Ok (Some gi)) tr /\ dirty gi = changed)
  /\ (exists listing stats tr_overview tr_stats tr,
        runs (collect_file_overview w root) (Ok listing) tr_overview
        /\ runs (collect_stats w root) (Ok stats) tr_stats
        /\ runs (format_summary w root)
             (Ok (Str.join nl
                    ([ path_line root;
                       "Branch: " ++ Str.strip (stdout (exec w ("git" :: branch_args) root));
                       "Latest commit: " ++ Str.or_else (answer w root log_args) "n/a";
                       "Remote: " ++ Str.or_else (answer w root remote_args) "n/a";
                       line;
                       EmptyString;
                       contents_line stats ]%string ++ bullets listing))) tr
        /\ Forall (fun x => ~ Str.startswith x "Working tree: ")
             ([ path_line root;
                "Branch: " ++ Str.strip (stdout (exec w ("git" :: branch_args) root));
                "Latest commit: " ++ Str.or_else (answer w root log_args) "n/a";
                "Remote: " ++ Str.or_else (answer w root remote_args) "n/a";
                EmptyString;
                contents_line stats ]%string ++ bullets listing))
  /\ (line = "Working tree: dirty"
      <-> returncode status = 0%Z /\ Str.blank (stdout status) = false)
  /\ (line = "Working tree: clean"
      <-> returncode status <> 0%Z \/ Str.blank (stdout status) = true).
Proof.
  intros Hd Hl Hst Hb status changed line.
  assert (Hent : can_enter w root).
  { exists n. split; [exact Hd | now apply (listing_enters root n l)]. }
  pose proof (answer_succeeded w root branch_args Hb) as Hab.
  assert (Hdirty : Str.truthy (Str.strip (Str.or_else (answer w root status_args)
                                            EmptyString)) = changed).
  { unfold changed, status, answer.
    destruct (returncode (exec w ("git" :: status_args) root) =? 0)%Z; [|reflexivity].
    apply dirty_iff_not_blank. }
  split; [|split; [|split]].
  - pose proof (collect_git_info_enters w root Hent) as Hg.
    unfold git_info_of in Hg. rewrite Hab in Hg.
    eexists. eexists. split; [exact Hg | exact Hdirty].
  - destruct (format_summary_listable w root n l Hd Hl Hst) as (stats & tr & Hs & Hf).
    unfold git_info_of in Hf. rewrite Hab in Hf.
    rewrite summary_lines_some in Hf. cbn [branch latest_commit remote dirty] in Hf.
    rewrite Hdirty in Hf.
    exists (map entry_line (filter not_git (objects (sorted l)))), stats.
    eexists. eexists. eexists.
    split; [apply (collect_file_overview_listable w root n l Hd Hl Hst)|].
    split; [exact Hs|]. split.
    + unfold line. destruct changed; exact Hf.
    + cbn [app]. repeat apply Forall_cons.
      * unfold path_line. other_prefix.
      * other_prefix.
      * other_prefix.
      * other_prefix.
      * other_prefix.
      * unfold contents_line. other_prefix.
      * apply Forall_forall. intros x Hx. unfold bullets in Hx.
        apply in_map_iff in Hx as (e & <- & _). other_prefix.
  - unfold line, changed.
    destruct (Z.eqb_spec (returncode status) 0) as [H0|Hn];
      destruct (Str.blank (stdout status)); cbn; split;
      try discriminate; try tauto; intros [? ?]; congruence.
  - unfold line, changed.
    destruct (Z.eqb_spec (returncode status) 0) as [H0|Hn];
      destruct (Str.blank (stdout status)); cbn; split;
      try discriminate; try tauto; intros [?|?]; congruence.
Qed.

Lemma working_tree_line_follows_status_witness :
  lookup (fs Examples.w1) ["repo"] = Some (Dir true Examples.repo_entries)
  /\ listing ["repo"] (Dir true Examples.repo_entries)
     = Ok (present Examples.repo_entries)
  /\ statable (present Examples.repo_entries) = true
  /\ returncode (exec Examples.w1 ("git" :: branch_args) ["repo"]) = 0%Z
  /\ exists gi tr,
       runs (collect_git_info Examples.w1 ["repo"]) (Ok (Some gi)) tr
       /\ dirty gi = true.
Proof.
  assert (H1 : lookup (fs Examples.w1) ["repo"] = Some (Dir true Examples.repo_entries))
    by reflexivity.
  assert (H2 : listing ["repo"] (Dir true Examples.repo_entries)
               = Ok (present Examples.repo_entries)) by reflexivity.
  assert (H3 : statable (present Examples.repo_entries) = true) by reflexivity.
  assert (H4 : returncode (exec Examples.w1 ("git" :: branch_args) ["repo"]) = 0%Z)
    by reflexivity.
  split; [exact H1|]. split; [exact H2|]. split; [exact H3|]. split; [exact H4|].
  exact (proj1 (working_tree_line_follows_status Examples.w1 ["repo"] _ _ H1 H2 H3 H4)).
Defined.

Lemma collect_file_overview_fs w w' root :
  fs w' = fs w -> collect_file_overview w' root = collect_file_overview w root.
Proof. intros H. unfold collect_file_overview, iterdir. now rewrite H. Qed.

Lemma collect_stats_fs w w' root :
  fs w' = fs w -> collect_stats w' root = collect_stats w root.
Proof. intros H. unfold collect_stats. now rewrite H. Qed.

(** C10. In a directory of a repository where the status query fails, the
    collector takes the working tree for clean, and the summary, when the
    directory can be listed, has "Working tree: clean" as its fifth line. The
    program behaves as it does in a world that differs in the status query
    only, the query succeeding there with a blank output. *)
Theorem failed_status_reads_clean (w : world) (root : path) r es :
  lookup (fs w) root = Some (Dir r es) ->
  returncode (exec w ("git" :: branch_args) root) = 0%Z ->
  returncode (exec w ("git" :: status_args) root) <> 0%Z ->
  (exists gi tr,
      runs (collect_git_info w root) (Ok (Some gi)) tr /\ dirty gi = false)
  /\ (r = true ->
      exists before after tr,
        runs (format_summary w root)
             (Ok (Str.join nl (before ++ "Working tree: clean" :: after))) tr
        /\ List.length before = 4)
  /\ (forall w',
        fs w' = fs w ->
        (forall args, args <> status_args ->
           exec w' ("git" :: args) root = exec w ("git" :: args) root) ->
        returncode (exec w' ("git" :: status_args) root) = 0%Z ->
        Str.blank (stdout (exec w' ("git" :: status_args) root)) = true ->
        forall t, format_summary w' root t = format_summary w root t).
Proof.
  intros Hd Hb Hst.
  assert (Hdir : is_directory w root) by (now exists r, es).
  pose proof (answer_succeeded w root branch_args Hb) as Hab.
  pose proof (answer_failed w root status_args Hst) as Has.
  split; [|split].
  - pose proof (collect_git_info_runs w root Hdir) as Hg.
    unfold git_info_of in Hg. rewrite Hab, Has in Hg.
    eexists. eexists. split; [exact Hg | reflexivity].
  - intros ->.
    destruct (format_summary_runs w root es Hd) as (stats & tr & Hs & Hf).
    unfold git_info_of in Hf. rewrite Hab, Has in Hf.
    rewrite summary_lines_some in Hf.
    eexists [_; _; _; _]. eexists. eexists. split; [exact Hf | reflexivity].
  - intros w' Hfs Hexec Hst' Hblank t.
    assert (Hdir' : is_directory w' root) by (exists r, es; now rewrite Hfs).
    assert (Hans : forall args, args <> status_args ->
                     answer w' root args = answer w root args).
    { intros args Hne. unfold answer. now rewrite (Hexec args Hne). }
    assert (Hinfo : git_info_of w' root = git_info_of w root).
    { unfold git_info_of.
      rewrite (Hans branch_args), (Hans log_args), (Hans remote_args)
        by discriminate.
      rewrite (answer_succeeded w' root status_args Hst'), Has.
      rewrite dirty_iff_not_blank, Hblank. reflexivity. }
    assert (Hcalls : git_calls w' root = git_calls w root).
    { unfold git_calls. now rewrite (Hans branch_args) by discriminate. }
    unfold format_summary, bind.
    rewrite (collect_git_info_runs w' root Hdir' t).
    rewrite (collect_git_info_runs w root Hdir t).
    rewrite Hinfo, Hcalls.
    rewrite (collect_file_overview_fs w w' root Hfs).
    rewrite (collect_stats_fs w w' root Hfs).
    reflexivity.
Qed.

Lemma failed_status_reads_clean_witness :
  lookup (fs Examples.w2) ["repo"] = Some (Dir true Examples.repo_entries)
  /\ returncode (exec Examples.w2 ("git" :: branch_args) ["repo"]) = 0%Z
  /\ returncode (exec Examples.w2 ("git" :: status_args) ["repo"]) <> 0%Z
  /\ exists gi tr,
       runs (collect_git_info Examples.w2 ["repo"]) (Ok (Some gi)) tr
       /\ dirty gi = false.
Proof.
  assert (H1 : lookup (fs Examples.w2) ["repo"] = Some (Dir true Examples.repo_entries))
    by reflexivity.
  assert (H2 : returncode (exec Examples.w2 ("git" :: branch_args) ["repo"]) = 0%Z)
    by reflexivity.
  assert (H3 : returncode (exec Examples.w2 ("git" :: status_args) ["repo"]) <> 0%Z)
    by (simpl; lia).
  split; [exact H1|]. split; [exact H2|]. split; [exact H3|].
  exact (proj1 (failed_status_reads_clean Examples.w2 ["repo"] true
                  Examples.repo_entries H1 H2 H3)).
Defined.

(** ** The entry point *)

Lemma exists_runs w p :
  runs (exists_ w p)
       (Ok (match lookup (fs w) p with Some _ => true | None => false end))
       [Exists p].
Proof. unfold exists_. apply runs_log_then, runs_ret. Qed.

Lemma append_assoc (a b c : string) : ((a ++ b) ++ c = a ++ (b ++ c))%string.
Proof. induction a as [|x a IH]; simpl; [reflexivity | now rewrite IH]. Qed.



(** C9, as the claim has it, at a regular file of 256 bytes: the path
    exists and is not a directory, and the process did not die of the
    listing, which was never called. *)
Lemma non_directory_never_reaches_listing :
  lookup (fs Examples.w0) (resolve Examples.w0 "notes.txt") = Some (File 256)
  /\ ~ fails_while_listing (main Examples.w0 (Some "notes.txt"))
         (resolve Examples.w0 "notes.txt").
Proof.
  split; [reflexivity|].
  intros (e & made & _ & Hcalls). vm_compute in Hcalls.
  destruct made as [|c1 [|c2 [|c3 made]]]; simpl in Hcalls; discriminate.
Qed.

(** C9, amended. When the path resolves to an existing object that is not a
    directory, the test of existence passes and collection begins with the
    branch query; spawning the client with that path as working directory
    raises [NotADirectoryError], which nobody handles: the process prints
    nothing, writes a traceback and no usage message, and leaves with status
    1. The listing of the children, which would raise the same error, is not
    reached. *)
Theorem non_directory_fails_at_first_query (w : world) (arg : option string) sz :
  let root := resolve w (match arg with Some a => a | None => "." end) in
  lookup (fs w) root = Some (File sz) ->
  main w arg =
    {| printed := "";
       errors := Traceback (NotADirectoryError root);
       status := 1;
       calls := [Exists root; Spawn ("git" :: branch_args) root] |}
  /\ status (main w arg) <> 0%Z
  /\ (forall text, errors (main w arg) <> Message text)
  /\ ~ In (Iterdir root) (calls (main w arg))
  /\ runs (collect_file_overview w root) (Raise (NotADirectoryError root)) [Iterdir root].
Proof.
  intros root Hf.
  assert (Hmain : main w arg =
    {| printed := "";
       errors := Traceback (NotADirectoryError root);
       status := 1;
       calls := [Exists root; Spawn ("git" :: branch_args) root] |}).
  { unfold main. fold root. rewrite (exists_runs w root []), Hf.
    unfold format_summary, collect_git_info, run_git, subprocess_run, bind, log, raise.
    rewrite Hf. reflexivity. }
  split; [exact Hmain|]. rewrite Hmain. cbn [status errors calls].
  split; [lia|]. split; [discriminate|]. split.
  - intros [H|[H|[]]]; discriminate.
  - unfold collect_file_overview. apply runs_bind_raise.
    unfold iterdir. rewrite Hf. apply runs_log_then, runs_raise.
Qed.

Lemma non_directory_fails_at_first_query_witness :
  lookup (fs Examples.w0) (resolve Examples.w0 "notes.txt") = Some (File 256)
  /\ main Examples.w0 (Some "notes.txt") =
       {| printed := "";
          errors := Traceback (NotADirectoryError ["notes.txt"]);
          status := 1;
          calls := [Exists ["notes.txt"]; Spawn ("git" :: branch_args) ["notes.txt"]] |}.
Proof.
  assert (H : lookup (fs Examples.w0) (resolve Examples.w0 "notes.txt")
              = Some (File 256)) by reflexivity.
  split; [exact H|].
  exact (proj1 (non_directory_fails_at_first_query Examples.w0 (Some "notes.txt") 256 H)).
Defined.

(** C6, as the claim has it, at two empty directories outside any
    repository: the three collectors give the same values in both, and the
    two summaries differ. *)
Lemma summary_depends_on_the_path :
  value (collect_git_info Examples.w0 ["a"]) = value (collect_git_info Examples.w0 ["b"])
  /\ value (collect_file_overview Examples.w0 ["a"])
     = value (collect_file_overview Examples.w0 ["b"])
  /\ value (collect_stats Examples.w0 ["a"]) = value (collect_stats Examples.w0 ["b"])
  /\ value (collect_stats Examples.w0 ["a"]) = Ok {| files := 0; dirs := 0 |}
  /\ value (format_summary Examples.w0 ["a"]) <> value (format_summary Examples.w0 ["b"]).
Proof.
  repeat split; try reflexivity. vm_compute. discriminate.
Qed.

Lemma runs_value {A} (m : M A) r tr : runs m r tr -> value m = r /\ trace m = tr.
Proof. intros H. unfold value, trace. now rewrite (H []). Qed.

Lemma uniform_ret {A} (a : A) : uniform (ret a).
Proof. eexists. eexists. apply runs_ret. Qed.

Lemma uniform_raise {A} (e : exn) : uniform (@raise A e).
Proof. eexists. eexists. apply runs_raise. Qed.

Lemma uniform_bind {A B} (m : M A) (k : A -> M B) :
  uniform m -> (forall a, uniform (k a)) -> uniform (bind m k).
Proof.
  intros ([a|e] & tr & Hm) Hk.
  - destruct (Hk a) as (r & tr' & Hka). eexists. eexists.
    eapply runs_bind; [exact Hm | exact Hka].
  - eexists. eexists. apply runs_bind_raise. exact Hm.
Qed.

Lemma uniform_log_then {A} (c : call) (m : M A) : uniform m -> uniform (log c ;;; m).
Proof.
  intros H. apply uniform_bind; [|intros _; exact H].
  eexists. eexists. apply runs_log.
Qed.

Lemma run_git_uniform w args cwd : uniform (run_git w args cwd).
Proof.
  unfold run_git. apply uniform_bind.
  - unfold subprocess_run. apply uniform_log_then.
    destruct (lookup (fs w) cwd) as [n|]; [|apply uniform_raise].
    destruct (chdir_error cwd n); [apply uniform_raise | apply uniform_ret].
  - intros cp. destruct (negb (returncode cp =? 0)%Z); apply uniform_ret.
Qed.

Lemma collect_git_info_uniform w root : uniform (collect_git_info w root).
Proof.
  unfold collect_git_info. apply uniform_bind; [apply run_git_uniform|].
  intros [b|]; [|apply uniform_ret].
  apply uniform_bind; [apply run_git_uniform|]. intros latest.
  apply uniform_bind; [apply run_git_uniform|]. intros status.
  apply uniform_bind; [apply run_git_uniform|]. intros remote.
  apply uniform_ret.
Qed.

Lemma overview_loop_uniform root l entries : uniform (overview_loop root l entries).
Proof.
  revert entries. induction l as [|[name o] l IH]; intros entries; cbn [overview_loop].
  - apply uniform_ret.
  - destruct (name =? ".git")%string; [apply IH|].
    apply uniform_bind.
    { unfold is_dir. apply uniform_log_then, uniform_ret. }
    intros [|]; [apply IH|].
    apply uniform_bind; [|intros sz; apply IH].
    unfold stat_size. apply uniform_log_then.
    destruct o; [apply uniform_ret | apply uniform_raise].
Qed.

Lemma collect_file_overview_uniform w root : uniform (collect_file_overview w root).
Proof.
  unfold collect_file_overview. apply uniform_bind.
  - unfold iterdir. apply uniform_log_then.
    destruct (lookup (fs w) root) as [n|]; [|apply uniform_raise].
    destruct (listing root n); [apply uniform_ret | apply uniform_raise].
  - intros children. apply overview_loop_uniform.
Qed.

Lemma collect_stats_uniform w root : uniform (collect_stats w root).
Proof.
  destruct (collect_stats_total w root) as (stats & tr & H).
  exists (Ok stats), tr. exact H.
Qed.

(** The formatter ends as its collectors make it end. *)
Lemma format_summary_from_runs w root rg tg ro to rs ts :
  runs (collect_git_info w root) rg tg ->
  runs (collect_file_overview w root) ro to ->
  runs (collect_stats w root) rs ts ->
  runs (format_summary w root) (summary_result root rg ro rs)
       (summary_calls rg tg ro to ts).
Proof.
  intros Hg Ho Hs. unfold format_summary, summary_result, summary_calls.
  destruct rg as [g|e].
  2:{ rewrite app_nil_r. now apply runs_bind_raise. }
  eapply runs_bind; [exact Hg|].
  destruct ro as [l|e].
  2:{ rewrite app_nil_r. now apply runs_bind_raise. }
  eapply runs_bind; [exact Ho|].
  destruct rs as [s|e].
  2:{ now apply runs_bind_raise. }
  rewrite <- (app_nil_r ts). eapply runs_bind; [exact Hs | apply runs_ret].
Qed.

(** C6, amended. The formatter ends as a function of the path and of what
    its three collectors end with: in two runs on the same path, in worlds
    that may differ in everything else, in which the collectors give equal
    metadata, listing and stats, or fail alike, the formatter gives the same
    text, or fails alike. The function is [summary_result]; the calls of the
    formatter are those of its collectors, each running if the ones before
    it returned, and no other; and neither the text nor the calls depend on
    what the process called before. *)
Theorem summary_determined_by_path_and_inputs (w1 w2 : world) (root : path) :
  value (collect_git_info w1 root) = value (collect_git_info w2 root) ->
  value (collect_file_overview w1 root) = value (collect_file_overview w2 root) ->
  value (collect_stats w1 root) = value (collect_stats w2 root) ->
  value (format_summary w1 root) = value (format_summary w2 root)
  /\ value (format_summary w1 root)
     = summary_result root (value (collect_git_info w1 root))
         (value (collect_file_overview w1 root)) (value (collect_stats w1 root))
  /\ trace (format_summary w1 root)
     = summary_calls (value (collect_git_info w1 root)) (trace (collect_git_info w1 root))
         (value (collect_file_overview w1 root)) (trace (collect_file_overview w1 root))
         (trace (collect_stats w1 root))
  /\ (forall before,
        format_summary w1 root before
        = (value (format_summary w1 root), before ++ trace (format_summary w1 root))).
Proof.
  assert (Hall : forall w,
             runs (format_summary w root)
               (summary_result root (value (collect_git_info w root))
                  (value (collect_file_overview w root)) (value (collect_stats w root)))
               (summary_calls (value (collect_git_info w root))
                  (trace (collect_git_info w root))
                  (value (collect_file_overview w root))
                  (trace (collect_file_overview w root))
                  (trace (collect_stats w root)))).
  { intros w.
    destruct (collect_git_info_uniform w root) as (rg & tg & Hg).
    destruct (collect_file_overview_uniform w root) as (ro & to & Ho).
    destruct (collect_stats_uniform w root) as (rs & ts & Hs).
    destruct (runs_value _ _ _ Hg) as [-> ->].
    destruct (runs_value _ _ _ Ho) as [-> ->].
    destruct (runs_value _ _ _ Hs) as [-> ->].
    now apply format_summary_from_runs. }
  intros Hg Ho Hs.
  destruct (runs_value _ _ _ (Hall w1)) as [Hv1 Ht1].
  destruct (runs_value _ _ _ (Hall w2)) as [Hv2 Ht2].
  split; [|split; [exact Hv1 | split; [exact Ht1|]]].
  - rewrite Hv1, Hv2, Hg, Ho, Hs. reflexivity.
  - intros before. rewrite Hv1, Ht1. apply (Hall w1).
Qed.

Lemma summary_determined_by_path_and_inputs_witness :
  value (collect_git_info Examples.w1 ["repo"])
    = value (collect_git_info MoreExamples.w10 ["repo"])
  /\ value (collect_file_overview Examples.w1 ["repo"])
     = value (collect_file_overview MoreExamples.w10 ["repo"])
  /\ value (collect_stats Examples.w1 ["repo"])
     = value (collect_stats MoreExamples.w10 ["repo"])
  /\ fs Examples.w1 <> fs MoreExamples.w10
  /\ exec Examples.w1 ("git" :: status_args) ["repo"]
     <> exec MoreExamples.w10 ("git" :: status_args) ["repo"]
  /\ value (format_summary Examples.w1 ["repo"])
     = value (format_summary MoreExamples.w10 ["repo"]).
Proof.
  assert (H1 : value (collect_git_info Examples.w1 ["repo"])
               = value (collect_git_info MoreExamples.w10 ["repo"])) by reflexivity.
  assert (H2 : value (collect_file_overview Examples.w1 ["repo"])
               = value (collect_file_overview MoreExamples.w10 ["repo"])) by reflexivity.
  assert (H3 : value (collect_stats Examples.w1 ["repo"])
               = value (collect_stats MoreExamples.w10 ["repo"])) by reflexivity.
  split; [exact H1|]. split; [exact H2|]. split; [exact H3|].
  split; [discriminate|]. split; [discriminate|].
  exact (proj1 (summary_determined_by_path_and_inputs Examples.w1 MoreExamples.w10
                  ["repo"] H1 H2 H3)).
Defined.

(** ** The stats and the overview *)

Lemma add_no_stats_l a : add_stats no_stats a = a.
Proof. apply stats_eq; simpl; lia. Qed.

(** C1. On a tree whose directories have no two entries of the same name,
    the collector returns the counts of the files and directories of the
    tree from which every directory named ".git" was removed, at every depth,
    with all that lies beneath it; and every directory it lists is reached
    from the root on a way that goes through no ".git". *)
Theorem stats_exclude_git_directories (w : world) (root : path) (n : node) :
  lookup (fs w) root = Some n ->
  wf n = true ->
  exists tr,
    runs (collect_stats w root) (Ok (count (prune n))) tr
    /\ Forall (beneath root) tr.
Proof.
  intros Hn Hwf. unfold collect_stats. rewrite Hn.
  destruct (os_walk_counts_pruned n Hwf root {| files := 0; dirs := 0 |})
    as (tr & Hr & Hb).
  exists tr. split; [|exact Hb].
  change {| files := 0; dirs := 0 |} with no_stats in Hr.
  now rewrite add_no_stats_l in Hr.
Qed.

Lemma stats_exclude_git_directories_witness :
  lookup (fs Examples.w0) ["repo"] = Some (Dir true Examples.repo_entries)
  /\ wf (Dir true Examples.repo_entries) = true
  /\ count (prune (Dir true Examples.repo_entries)) = {| files := 2; dirs := 1 |}
  /\ count (Dir true Examples.repo_entries) = {| files := 4; dirs := 4 |}
  /\ exists tr,
       runs (collect_stats Examples.w0 ["repo"])
            (Ok (count (prune (Dir true Examples.repo_entries)))) tr
       /\ Forall (beneath ["repo"]) tr.
Proof.
  assert (H1 : lookup (fs Examples.w0) ["repo"] = Some (Dir true Examples.repo_entries))
    by reflexivity.
  assert (H2 : wf (Dir true Examples.repo_entries) = true) by reflexivity.
  split; [exact H1|]. split; [exact H2|].
  split; [reflexivity|]. split; [reflexivity|].
  exact (stats_exclude_git_directories Examples.w0 ["repo"]
           (Dir true Examples.repo_entries) H1 H2).
Defined.

(** C7. A directory that holds the internal directory of a repository and
    one file README.md of 10 bytes, in either order and whatever the
    internal directory holds and the client answers: after the path line and
    the version-control lines, the summary ends with an empty line, the line
    "Contents: 1 files in 0 directories" and the single bullet
    "  - README.md (0.0 KB)". *)
Theorem fresh_repository_summary (w : world) (root : path) es rg gitc :
  lookup (fs w) root = Some (Dir true es) ->
  Permutation es [(".git", Dir rg gitc); ("README.md", File 10)] ->
  exists git_lines tr,
    runs (format_summary w root)
         (Ok (Str.join nl
                ([path_line root] ++ git_lines
                 ++ [""; "Contents: 1 files in 0 directories";
                     "  - README.md (0.0 KB)"]))) tr
    /\ (git_lines = [fallback_line]
        \/ (List.length git_lines = 4 /\ Forall metadata_line git_lines)).
Proof.
  intros Hd Hp.
  destruct (format_summary_runs w root es Hd) as (stats & tr & Hs & Hf).
  assert (Hstats : runs (collect_stats w root) (Ok {| files := 1; dirs := 0 |})
                     [Scandir root]).
  { unfold collect_stats. rewrite Hd, os_walk_dir.
    apply Permutation_sym, Permutation_length_2_inv in Hp.
    destruct Hp as [-> | ->]; apply runs_log_then; cbn; apply runs_ret. }
  destruct (runs_unique _ _ _ _ _ Hs Hstats) as [[= ->] _].
  assert (Hlist : map entry_line (filter not_git (sorted es)) = ["README.md (0.0 KB)"]).
  { apply Permutation_sym, Permutation_length_2_inv in Hp.
    destruct Hp as [-> | ->]; reflexivity. }
  rewrite Hlist in Hf.
  destruct (git_info_of w root) as [gi|].
  - rewrite summary_lines_some in Hf.
    eexists [_; _; _; _]. eexists. split; [exact Hf|]. right.
    split; [reflexivity|].
    unfold metadata_line, Str.startswith.
    constructor; [left; eexists; reflexivity|].
    constructor; [right; left; eexists; reflexivity|].
    constructor; [right; right; left; eexists; reflexivity|].
    constructor; [right; right; right; eexists; reflexivity|].
    constructor.
  - rewrite summary_lines_none in Hf.
    exists [fallback_line]. eexists. split; [exact Hf|]. now left.
Qed.

Lemma fresh_repository_summary_witness :
  lookup (fs Examples.w0) ["fresh"]
    = Some (Dir true [(".git", Dir true [("HEAD", File 23)]); ("README.md", File 10)])
  /\ exists git_lines tr,
       runs (format_summary Examples.w0 ["fresh"])
            (Ok (Str.join nl
                   ([path_line ["fresh"]] ++ git_lines
                    ++ [""; "Contents: 1 files in 0 directories";
                        "  - README.md (0.0 KB)"]))) tr
       /\ (git_lines = [fallback_line]
           \/ (List.length git_lines = 4 /\ Forall metadata_line git_lines)).
Proof.
  assert (H1 : lookup (fs Examples.w0) ["fresh"]
               = Some (Dir true [(".git", Dir true [("HEAD", File 23)]);
                                 ("README.md", File 10)])) by reflexivity.
  split; [exact H1|].
  exact (fresh_repository_summary Examples.w0 ["fresh"] _ true
           [("HEAD", File 23)] H1 (Permutation_refl _)).
Defined.

Lemma round_half_even_near (a b : N) :
  (0 < b ->
   2 * (Float.round_half_even a b * b) <= 2 * a + b
   /\ 2 * a <= 2 * (Float.round_half_even a b * b) + b)%N.
Proof.
  intros Hb. unfold Float.round_half_even.
  pose proof (N.div_mod a b) as Hdm.
  pose proof (N.mod_lt a b) as Hlt.
  assert (Hb0 : b <> 0%N) by lia. specialize (Hdm Hb0). specialize (Hlt Hb0).
  set (q := (a / b)%N) in *. set (r := (a mod b)%N) in *. clearbody q r.
  destruct (N.compare_spec (2 * r) b) as [He|Hl|Hg];
    [destruct (N.even q)|..]; split; nia.
Qed.

Lemma nearest_double_near (sz : N) :
  ((sz < 2 ^ 53 -> Float.nearest_double sz = sz)
   /\ 2 ^ 53 * Float.nearest_double sz <= 2 ^ 53 * sz + sz
   /\ 2 ^ 53 * sz <= 2 ^ 53 * Float.nearest_double sz + sz)%N.
Proof.
  unfold Float.nearest_double.
  destruct (N.ltb_spec sz (2 ^ 53)) as [Hlt|Hge].
  - repeat split; lia.
  - split; [lia|].
    assert (Hpos : (0 < sz)%N).
    { eapply N.lt_le_trans; [|exact Hge]. reflexivity. }
    pose proof (N.log2_spec sz Hpos) as [Hlo _].
    assert (He : (53 <= N.log2 sz)%N).
    { rewrite <- (N.log2_pow2 53) by lia. now apply N.log2_le_mono. }
    set (e := N.log2 sz) in *.
    assert (Hulp : (2 ^ 52 * 2 ^ (e - 52) = 2 ^ e)%N).
    { rewrite <- N.pow_add_r. f_equal. lia. }
    assert (Hup : (0 < 2 ^ (e - 52))%N).
    { apply N.neq_0_lt_0, N.pow_nonzero. discriminate. }
    destruct (round_half_even_near sz (2 ^ (e - 52)) Hup) as [H1 H2].
    set (m := (Float.round_half_even sz (2 ^ (e - 52)) * 2 ^ (e - 52))%N) in *.
    set (u := (2 ^ (e - 52))%N) in *.
    change (2 ^ 53)%N with 9007199254740992%N.
    change (2 ^ 52)%N with 4503599627370496%N in Hulp.
    lia.
Qed.

Lemma tenths_shown (sz : N) : shown_tenths sz (Float.tenths (Float.div_1024 sz)).
Proof.
  exists (Float.nearest_double sz).
  destruct (nearest_double_near sz) as (H1 & H2 & H3).
  split; [exact H1|]. split; [exact H2|]. split; [exact H3|].
  unfold Float.tenths, Float.div_1024. cbn [Float.num Float.scale].
  assert (Hb : (0 < 2 ^ 10)%N) by reflexivity.
  destruct (round_half_even_near (10 * Float.nearest_double sz) (2 ^ 10) Hb) as [Ha Hc].
  change (2 ^ 10)%N with 1024%N in *. lia.
Qed.

Lemma entry_line_rendered (e : string * node) : rendered e (entry_line e).
Proof.
  destruct e as [name n]. unfold rendered, entry_line. cbn [fst snd].
  destruct (is_dir_node n); [reflexivity|].
  exists (Float.tenths (Float.div_1024 (node_size n))). split; [|apply tenths_shown].
  unfold file_entry, Float.format_1f.
  now rewrite !append_assoc.
Qed.

Lemma present_filter_objects l :
  statable l = true -> present (filter not_git (objects l)) = filter not_git l.
Proof.
  unfold statable, objects, present.
  induction l as [|[nm o] l IH]; [reflexivity|].
  cbn [forallb flat_map filter snd fst]. intros H.
  apply andb_true_iff in H as [Ho Hl]. specialize (IH Hl).
  destruct o as [n|]; cbn [app filter].
  - replace (not_git (nm, n)) with (not_git (nm, Some n)) by reflexivity.
    destruct (not_git (nm, Some n)); cbn [map fst snd]; now rewrite IH.
  - apply negb_true_iff in Ho. rewrite Ho. exact IH.
Qed.

Lemma objects_in nm n l : In (nm, n) (objects l) -> In (nm, Some n) l.
Proof.
  unfold objects. induction l as [|[nm' o] l IH]; [contradiction|].
  cbn [flat_map fst snd]. intros H. apply in_app_or in H as [H|H].
  - destruct o as [n'|]; [|contradiction].
    destruct H as [[= -> ->]|[]]. now left.
  - right. now apply IH.
Qed.

Lemma objects_sorted l :
  StronglySorted name_le l -> StronglySorted name_le (objects l).
Proof.
  induction 1 as [|[nm o] l Hs IH Hy]; [constructor|].
  unfold objects. cbn [flat_map fst snd]. fold (objects l).
  destruct o as [n|]; [|exact IH].
  cbn [app]. constructor; [exact IH|].
  apply Forall_forall. intros [nm' n'] Hin. apply objects_in in Hin.
  rewrite Forall_forall in Hy. exact (Hy _ Hin).
Qed.

(** C2, as the claim has it, at a directory that can be listed and holds a
    file and a symbolic link whose target is missing: the collector produces
    no line at all, it raises the error of [stat] on the link. *)
Lemma overview_dies_on_a_dangling_link :
  lookup (fs MoreExamples.w8) ["mixed"]
    = Some (Loose [("a.txt", File 1)] ["gone"])
  /\ listing ["mixed"] (Loose [("a.txt", File 1)] ["gone"])
     = Ok [("a.txt", Some (File 1)); ("gone", None)]
  /\ value (collect_file_overview MoreExamples.w8 ["mixed"])
     = Raise (FileNotFoundError ["mixed"; "gone"])
  /\ ~ exists lines, value (collect_file_overview MoreExamples.w8 ["mixed"]) = Ok lines.
Proof.
  repeat split; try reflexivity.
  intros (lines & H). vm_compute in H. discriminate H.
Qed.

(** C2, amended. For a directory that can be listed and whose children
    other than ".git" all answer [stat] (none is a symbolic link without
    target), the overview collector returns one line for each child whose
    name is not ".git", the children taken in the order of their names:
    "name/" for a directory, and for any other child "name (X.Y KB)" where
    X.Y is the number of tenths nearest to the size in bytes divided by
    1024. *)
Theorem overview_lists_children_by_name (w : world) (root : path) n l :
  lookup (fs w) root = Some n ->
  listing root n = Ok l ->
  statable l = true ->
  exists children tr,
    runs (collect_file_overview w root) (Ok (map entry_line children)) tr
    /\ Permutation (present children) (filter not_git l)
    /\ StronglySorted name_le children
    /\ Forall (fun e => rendered e (entry_line e)) children.
Proof.
  intros Hd Hl Hst. exists (filter not_git (objects (sorted l))). eexists.
  split; [apply (collect_file_overview_listable w root n l Hd Hl Hst)|].
  split; [|split].
  - rewrite present_filter_objects by now rewrite statable_sorted.
    apply filter_perm, sorted_perm.
  - apply filter_sorted, objects_sorted, sorted_sorted.
  - apply Forall_forall. intros e _. apply entry_line_rendered.
Qed.

Lemma overview_lists_children_by_name_witness :
  lookup (fs Examples.w0) ["repo"] = Some (Dir true Examples.repo_entries)
  /\ listing ["repo"] (Dir true Examples.repo_entries) = Ok (present Examples.repo_entries)
  /\ statable (present Examples.repo_entries) = true
  /\ value (collect_file_overview Examples.w0 ["repo"])
     = Ok ["README.md (0.0 KB)"; "src/"]
  /\ exists children tr,
       runs (collect_file_overview Examples.w0 ["repo"])
            (Ok (map entry_line children)) tr
       /\ Permutation (present children) (filter not_git (present Examples.repo_entries))
       /\ StronglySorted name_le children
       /\ Forall (fun e => rendered e (entry_line e)) children.
Proof.
  assert (H1 : lookup (fs Examples.w0) ["repo"] = Some (Dir true Examples.repo_entries))
    by reflexivity.
  assert (H2 : listing ["repo"] (Dir true Examples.repo_entries)
               = Ok (present Examples.repo_entries)) by reflexivity.
  assert (H3 : statable (present Examples.repo_entries) = true) by reflexivity.
  split; [exact H1|]. split; [exact H2|]. split; [exact H3|]. split; [reflexivity|].
  exact (overview_lists_children_by_name Examples.w0 ["repo"] _ _ H1 H2 H3).
Defined.

(** * Further properties *)

(** ** Stripping *)

Lemma lstrip_split s :
  exists pre, s = (pre ++ Str.lstrip s)%string /\ Str.blank pre = true.
Proof.
  induction s as [|c s (pre & IH & Hb)]; simpl.
  - now exists EmptyString.
  - destruct (Str.isspace c) eqn:E.
    + exists (String c pre). simpl. rewrite E, Hb. split; [now rewrite <- IH | reflexivity].
    + now exists EmptyString.
Qed.

Lemma rstrip_split s :
  exists post, s = (Str.rstrip s ++ post)%string /\ Str.blank post = true.
Proof.
  induction s as [|c s (post & IH & Hb)]; simpl.
  - now exists EmptyString.
  - destruct (Str.rstrip s) as [|c' r'] eqn:E.
    + simpl in IH. subst post. destruct (Str.isspace c) eqn:Ec.
      * exists (String c s). simpl. now rewrite Ec, Hb.
      * now exists s.
    + exists post. simpl. split; [now rewrite IH at 1 | exact Hb].
Qed.

Lemma rstrip_last s c : last_char (Str.rstrip s) = Some c -> Str.isspace c = false.
Proof.
  induction s as [|a s IH]; simpl; [discriminate|].
  destruct (Str.rstrip s) as [|c' r'] eqn:E.
  - destruct (Str.isspace a) eqn:Ea; simpl; [discriminate|].
    now intros [= <-].
  - exact IH.
Qed.

Lemma rstrip_rstrip s : Str.rstrip (Str.rstrip s) = Str.rstrip s.
Proof.
  induction s as [|a s IH]; simpl; [reflexivity|].
  destruct (Str.rstrip s) as [|c' r'] eqn:E.
  - destruct (Str.isspace a) eqn:Ea; simpl; [reflexivity|]. now rewrite Ea.
  - cbn [Str.rstrip]. cbn [Str.rstrip] in IH. rewrite IH. reflexivity.
Qed.

Lemma lstrip_trimmed_head s :
  (forall c, first_char s = Some c -> Str.isspace c = false) -> Str.lstrip s = s.
Proof.
  destruct s as [|c s]; simpl; [reflexivity|].
  intros H. now rewrite (H c eq_refl).
Qed.

Lemma strip_first s c : first_char (Str.strip s) = Some c -> Str.isspace c = false.
Proof.
  unfold Str.strip. destruct (Str.lstrip s) as [|a r] eqn:E; [discriminate|].
  pose proof (lstrip_head s a r E) as Ha.
  destruct (rstrip_head a r Ha) as (r' & ->). simpl. now intros [= <-].
Qed.

Lemma strip_trimmed s : trimmed (Str.strip s).
Proof.
  split; [apply strip_first | apply rstrip_last].
Qed.

Lemma strip_strip s : Str.strip (Str.strip s) = Str.strip s.
Proof.
  unfold Str.strip at 1.
  rewrite (lstrip_trimmed_head (Str.strip s) (strip_first s)).
  unfold Str.strip. apply rstrip_rstrip.
Qed.

Lemma strip_split s :
  exists pre post,
    s = (pre ++ Str.strip s ++ post)%string
    /\ Str.blank pre = true /\ Str.blank post = true.
Proof.
  destruct (lstrip_split s) as (pre & Hs & Hpre).
  destruct (rstrip_split (Str.lstrip s)) as (post & Hl & Hpost).
  exists pre, post. unfold Str.strip. now rewrite <- Hl.
Qed.

(** ** The queries, one by one *)

(** X1. A query run in a directory spawns the client once. It gives nothing
    when the exit status is not zero; otherwise it gives the standard output
    without the white space at its two ends: what is removed is blank, what
    is left neither starts nor ends with white space, and stripping it again
    changes nothing. *)
Theorem run_git_answer_is_trimmed (w : world) (args : list string) (cwd : path) :
  is_directory w cwd ->
  exists r,
    runs (run_git w args cwd) (Ok r) [Spawn ("git" :: args) cwd]
    /\ (returncode (exec w ("git" :: args) cwd) <> 0%Z -> r = None)
    /\ (returncode (exec w ("git" :: args) cwd) = 0%Z ->
        exists s pre post,
          r = Some s
          /\ stdout (exec w ("git" :: args) cwd) = (pre ++ s ++ post)%string
          /\ Str.blank pre = true /\ Str.blank post = true
          /\ trimmed s
          /\ Str.strip s = s).
Proof.
  intros Hd. exists (answer w cwd args).
  split; [apply (run_git_runs w args cwd Hd)|]. split.
  - apply answer_failed.
  - intros H0. rewrite (answer_succeeded w cwd args H0).
    destruct (strip_split (stdout (exec w ("git" :: args) cwd)))
      as (pre & post & Hs & Hpre & Hpost).
    exists (Str.strip (stdout (exec w ("git" :: args) cwd))), pre, post.
    split; [reflexivity|]. split; [exact Hs|]. split; [exact Hpre|].
    split; [exact Hpost|]. split; [apply strip_trimmed | apply strip_strip].
Qed.

Lemma run_git_answer_is_trimmed_witness :
  is_directory Examples.w1 ["repo"]
  /\ exists r,
       runs (run_git Examples.w1 branch_args ["repo"]) (Ok r)
            [Spawn ("git" :: branch_args) ["repo"]]
       /\ (returncode (exec Examples.w1 ("git" :: branch_args) ["repo"]) <> 0%Z
           -> r = None)
       /\ (returncode (exec Examples.w1 ("git" :: branch_args) ["repo"]) = 0%Z ->
           exists s pre post,
             r = Some s
             /\ stdout (exec Examples.w1 ("git" :: branch_args) ["repo"])
                = (pre ++ s ++ post)%string
             /\ Str.blank pre = true /\ Str.blank post = true
             /\ trimmed s
             /\ Str.strip s = s).
Proof.
  assert (H : is_directory Examples.w1 ["repo"]).
  { exists true, Examples.repo_entries. reflexivity. }
  split; [exact H|].
  exact (run_git_answer_is_trimmed Examples.w1 branch_args ["repo"] H).
Defined.

Lemma or_else_stripped out d :
  Str.or_else (Some (Str.strip out)) d
  = if Str.blank out then d else Str.strip out.
Proof.
  unfold Str.or_else, Str.truthy.
  destruct (Str.blank out) eqn:B.
  - apply strip_blank in B. now rewrite B.
  - destruct (Str.strip out =? EmptyString)%string eqn:E; [|reflexivity].
    apply String.eqb_eq, strip_blank in E. congruence.
Qed.

(** X2. In a directory where the branch query succeeds, the latest commit
    the collector records is "n/a" when the log query fails and also when it
    succeeds with a blank output; it is the stripped output otherwise. *)
Theorem latest_commit_falls_back (w : world) (root : path) r es :
  lookup (fs w) root = Some (Dir r es) ->
  returncode (exec w ("git" :: branch_args) root) = 0%Z ->
  exists gi tr,
    runs (collect_git_info w root) (Ok (Some gi)) tr
    /\ (returncode (exec w ("git" :: log_args) root) <> 0%Z
        \/ Str.blank (stdout (exec w ("git" :: log_args) root)) = true ->
        latest_commit gi = "n/a")
    /\ (returncode (exec w ("git" :: log_args) root) = 0%Z ->
        Str.blank (stdout (exec w ("git" :: log_args) root)) = false ->
        latest_commit gi = Str.strip (stdout (exec w ("git" :: log_args) root))).
Proof.
  intros Hd Hb.
  assert (Hdir : is_directory w root) by (now exists r, es).
  pose proof (collect_git_info_runs w root Hdir) as Hg.
  unfold git_info_of in Hg. rewrite (answer_succeeded w root branch_args Hb) in Hg.
  eexists. eexists. split; [exact Hg|]. cbn [latest_commit].
  destruct (Z.eq_dec (returncode (exec w ("git" :: log_args) root)) 0) as [H0|Hn].
  - rewrite (answer_succeeded w root log_args H0), or_else_stripped. split.
    + intros [Hc|Hbl]; [contradiction | now rewrite Hbl].
    + intros _ Hbl. now rewrite Hbl.
  - rewrite (answer_failed w root log_args Hn). split.
    + reflexivity.
    + intros H0. contradiction.
Qed.

Lemma latest_commit_falls_back_witness :
  lookup (fs Examples.w1) ["repo"] = Some (Dir true Examples.repo_entries)
  /\ returncode (exec Examples.w1 ("git" :: branch_args) ["repo"]) = 0%Z
  /\ exists gi tr,
       runs (collect_git_info Examples.w1 ["repo"]) (Ok (Some gi)) tr
       /\ (returncode (exec Examples.w1 ("git" :: log_args) ["repo"]) <> 0%Z
           \/ Str.blank (stdout (exec Examples.w1 ("git" :: log_args) ["repo"])) = true ->
           latest_commit gi = "n/a")
       /\ (returncode (exec Examples.w1 ("git" :: log_args) ["repo"]) = 0%Z ->
           Str.blank (stdout (exec Examples.w1 ("git" :: log_args) ["repo"])) = false ->
           latest_commit gi
           = Str.strip (stdout (exec Examples.w1 ("git" :: log_args) ["repo"]))).
Proof.
  assert (H1 : lookup (fs Examples.w1) ["repo"] = Some (Dir true Examples.repo_entries))
    by reflexivity.
  assert (H2 : returncode (exec Examples.w1 ("git" :: branch_args) ["repo"]) = 0%Z)
    by reflexivity.
  split; [exact H1|]. split; [exact H2|].
  exact (latest_commit_falls_back Examples.w1 ["repo"] true Examples.repo_entries H1 H2).
Defined.

(** X3. In a listable directory where the branch and remote queries both
    succeed, the collector records a remote, the stripped output, even when
    that is the empty string; the fourth line of the summary is then
    "Remote: n/a" when the output is blank and "Remote: " followed by the
    stripped output otherwise. *)
Theorem blank_remote_reads_na (w : world) (root : path) es :
  lookup (fs w) root = Some (Dir true es) ->
  returncode (exec w ("git" :: branch_args) root) = 0%Z ->
  returncode (exec w ("git" :: remote_args) root) = 0%Z ->
  exists gi tr_info before line after tr,
    runs (collect_git_info w root) (Ok (Some gi)) tr_info
    /\ remote gi = Some (Str.strip (stdout (exec w ("git" :: remote_args) root)))
    /\ runs (format_summary w root)
            (Ok (Str.join nl (before ++ line :: after))) tr
    /\ List.length before = 3
    /\ line = (if Str.blank (stdout (exec w ("git" :: remote_args) root))
               then "Remote: n/a"
               else "Remote: " ++ Str.strip (stdout (exec w ("git" :: remote_args) root)))%string.
Proof.
  intros Hd Hb Hr.
  assert (Hdir : is_directory w root) by (now exists true, es).
  pose proof (collect_git_info_runs w root Hdir) as Hg.
  destruct (format_summary_runs w root es Hd) as (stats & tr & Hs & Hf).
  unfold git_info_of in Hg, Hf.
  rewrite (answer_succeeded w root branch_args Hb) in Hg, Hf.
  rewrite (answer_succeeded w root remote_args Hr) in Hg, Hf.
  rewrite summary_lines_some in Hf. cbn [remote] in Hf.
  rewrite or_else_stripped in Hf.
  eexists. eexists. eexists [_; _; _]. eexists. eexists. eexists.
  split; [exact Hg|]. split; [reflexivity|]. split; [exact Hf|].
  split; [reflexivity|].
  now destruct (Str.blank (stdout (exec w ("git" :: remote_args) root))).
Qed.

Lemma blank_remote_reads_na_witness :
  lookup (fs MoreExamples.w5) ["repo"] = Some (Dir true Examples.repo_entries)
  /\ returncode (exec MoreExamples.w5 ("git" :: branch_args) ["repo"]) = 0%Z
  /\ returncode (exec MoreExamples.w5 ("git" :: remote_args) ["repo"]) = 0%Z
  /\ Str.blank (stdout (exec MoreExamples.w5 ("git" :: remote_args) ["repo"])) = true
  /\ exists gi tr_info before line after tr,
       runs (collect_git_info MoreExamples.w5 ["repo"]) (Ok (Some gi)) tr_info
       /\ remote gi
          = Some (Str.strip (stdout (exec MoreExamples.w5 ("git" :: remote_args) ["repo"])))
       /\ runs (format_summary MoreExamples.w5 ["repo"])
               (Ok (Str.join nl (before ++ line :: after))) tr
       /\ List.length before = 3
       /\ line = (if Str.blank (stdout (exec MoreExamples.w5 ("git" :: remote_args) ["repo"]))
                  then "Remote: n/a"
                  else "Remote: "
                       ++ Str.strip (stdout (exec MoreExamples.w5 ("git" :: remote_args) ["repo"])))%string.
Proof.
  assert (H1 : lookup (fs MoreExamples.w5) ["repo"] = Some (Dir true Examples.repo_entries))
    by reflexivity.
  assert (H2 : returncode (exec MoreExamples.w5 ("git" :: branch_args) ["repo"]) = 0%Z)
    by reflexivity.
  assert (H3 : returncode (exec MoreExamples.w5 ("git" :: remote_args) ["repo"]) = 0%Z)
    by reflexivity.
  split; [exact H1|]. split; [exact H2|]. split; [exact H3|]. split; [reflexivity|].
  exact (blank_remote_reads_na MoreExamples.w5 ["repo"] Examples.repo_entries H1 H2 H3).
Defined.

Lemma fallback_lines_not_metadata root stats listing :
  Forall (fun l => ~ metadata_line l)
         ([path_line root; fallback_line; EmptyString; contents_line stats]
          ++ bullets listing).
Proof.
  apply Forall_app. split; [|apply bullets_not_metadata].
  repeat constructor.
  - apply path_line_not_metadata.
  - apply fallback_line_not_metadata.
  - apply empty_line_not_metadata.
  - apply contents_line_not_metadata.
Qed.

(** X4. For a directory that can be listed and whose children answer
    [stat], the lines the formatter joins are, when the branch query
    succeeds, the path line, the four version-control lines, an empty line,
    the contents line and the bullets, and when it fails the path line, the
    fallback line, an empty line, the contents line and the bullets. So the
    lines hold the fallback line exactly when the branch query fails and a
    version-control line exactly when it succeeds, be its output empty: the
    second line is then "Branch: " followed by the stripped output. These
    are the lines of the text when none of them holds a line feed. *)
Theorem metadata_block_follows_branch_query (w : world) (root : path) n l :
  lookup (fs w) root = Some n ->
  listing root n = Ok l ->
  statable l = true ->
  exists listing stats tr_overview tr_stats tr,
    runs (collect_file_overview w root) (Ok listing) tr_overview
    /\ runs (collect_stats w root) (Ok stats) tr_stats
    /\ let lines :=
         (if (returncode (exec w ("git" :: branch_args) root) =? 0)%Z
          then [ path_line root;
                 "Branch: " ++ Str.strip (stdout (exec w ("git" :: branch_args) root));
                 "Latest commit: " ++ Str.or_else (answer w root log_args) "n/a";
                 "Remote: " ++ Str.or_else (answer w root remote_args) "n/a";
                 working_tree_line (answer w root status_args);
                 EmptyString;
                 contents_line stats ]%string
          else [ path_line root; fallback_line; EmptyString; contents_line stats ])
         ++ bullets listing in
       runs (format_summary w root) (Ok (Str.join nl lines)) tr
       /\ (In fallback_line lines
           <-> returncode (exec w ("git" :: branch_args) root) <> 0%Z)
       /\ ((exists x, In x lines /\ metadata_line x)
           <-> returncode (exec w ("git" :: branch_args) root) = 0%Z)
       /\ (Forall (fun x => Str.one_line x = true) lines ->
           Str.split_lines (Str.join nl lines) = lines).
Proof.
  intros Hd Hl Hst.
  destruct (format_summary_listable w root n l Hd Hl Hst) as (stats & tr & Hs & Hf).
  exists (map entry_line (filter not_git (objects (sorted l)))), stats.
  eexists. eexists. eexists.
  split; [apply (collect_file_overview_listable w root n l Hd Hl Hst)|].
  split; [exact Hs|].
  unfold git_info_of in Hf.
  destruct (Z.eqb_spec (returncode (exec w ("git" :: branch_args) root)) 0) as [H0|Hn];
    cbv zeta.
  - rewrite (answer_succeeded w root branch_args H0) in Hf.
    rewrite summary_lines_some in Hf. cbn [branch latest_commit remote dirty] in Hf.
    split; [exact Hf|]. split; [|split].
    + split; [|intros Hc; contradiction].
      intros Hin. exfalso. apply in_app_or in Hin as [Hin|Hin].
      * unfold path_line, contents_line, fallback_line, working_tree_line in Hin.
        simpl in Hin. decompose [or] Hin; try discriminate; contradiction.
      * unfold bullets in Hin. apply in_map_iff in Hin as (e & He & _).
        discriminate He.
    + split; [intros _; exact H0|]. intros _.
      eexists. split; [right; left; reflexivity|].
      left. eexists. reflexivity.
    + apply split_lines_join. discriminate.
  - rewrite (answer_failed w root branch_args Hn) in Hf.
    rewrite summary_lines_none in Hf.
    split; [exact Hf|]. split; [|split].
    + split; [intros _; exact Hn|]. intros _. right. left. reflexivity.
    + split; [|intros H0; contradiction].
      intros (x & Hin & Hm). exfalso.
      pose proof (fallback_lines_not_metadata root stats
                    (map entry_line (filter not_git (objects (sorted l))))) as Hall.
      rewrite Forall_forall in Hall. exact (Hall x Hin Hm).
    + apply split_lines_join. discriminate.
Qed.

Lemma metadata_block_follows_branch_query_witness :
  lookup (fs MoreExamples.w5) ["repo"] = Some (Dir true Examples.repo_entries)
  /\ statable (present Examples.repo_entries) = true
  /\ Str.strip (stdout (exec MoreExamples.w5 ("git" :: branch_args) ["repo"])) = EmptyString
  /\ value (format_summary MoreExamples.w5 ["repo"])
     = Ok (Str.join nl
             [ "Path: /repo"; "Branch: "; "Latest commit: n/a"; "Remote: n/a";
               "Working tree: clean"; EmptyString;
               "Contents: 2 files in 1 directories";
               "  - README.md (0.0 KB)"; "  - src/" ])
  /\ exists listing stats,
       (exists tr, runs (collect_file_overview MoreExamples.w5 ["repo"]) (Ok listing) tr)
       /\ exists tr, runs (collect_stats MoreExamples.w5 ["repo"]) (Ok stats) tr.
Proof.
  assert (H1 : lookup (fs MoreExamples.w5) ["repo"] = Some (Dir true Examples.repo_entries))
    by reflexivity.
  assert (H2 : listing ["repo"] (Dir true Examples.repo_entries)
               = Ok (present Examples.repo_entries)) by reflexivity.
  assert (H3 : statable (present Examples.repo_entries) = true) by reflexivity.
  split; [exact H1|]. split; [exact H3|]. split; [reflexivity|]. split; [reflexivity|].
  destruct (metadata_block_follows_branch_query MoreExamples.w5 ["repo"] _ _ H1 H2 H3)
    as (listing & stats & tro & trs & tr & Ho & Hs & _).
  exists listing, stats. split; eexists; eassumption.
Defined.

(** ** Links without target *)








(** ** Directories without subdirectories *)

Lemma target_not_link n t : target n <> Link t.
Proof.
  induction n as [sz | r es _ | es ds _ | t' IH |] using node_ind; cbn;
    try discriminate. exact IH.
Qed.

Lemma lookup_not_link n p t : lookup n p <> Some (Link t).
Proof.
  revert n. induction p as [|c p IH]; intros n; cbn [lookup].
  - intros [= H]. exact (target_not_link _ _ H).
  - destruct (target n) as [sz | r es | es ds | t' |]; try discriminate;
      (destruct (find_child c es) as [ch|]; [apply IH | discriminate]).
Qed.






(** ** The entry point on an existing path *)

Lemma main_of_runs (w : world) (arg : option string) r tr :
  let root := resolve w (match arg with Some a => a | None => "." end) in
  lookup (fs w) root <> None ->
  runs (format_summary w root) r tr ->
  main w arg = outcome_of root r tr.
Proof.
  intros root Hex Hf. unfold main. fold root.
  rewrite (exists_runs w root []). cbn [app].
  destruct (lookup (fs w) root); [|contradiction].
  rewrite (Hf [Exists root]). cbn [app]. now destruct r.
Qed.




Lemma git_calls_spawn_git w root :
  Forall (spawns_git root) (git_calls w root)
  /\ (List.length (git_calls w root) = 1 \/ List.length (git_calls w root) = 4).
Proof.
  unfold git_calls. destruct (answer w root branch_args); cbn [map]; split;
    try (now left); try (now right); repeat constructor; eexists; reflexivity.
Qed.

(** X9. When the path resolves to a directory that refuses listing with a
    [PermissionError], the program prints nothing, dies of a
    [PermissionError] for that path with status 1 and never starts the
    stats. If the directory can be entered, the program runs the client
    first, one query or four, and dies in the listing; if it cannot, the
    program dies in the first query to the client and lists nothing. *)
Theorem main_dies_on_unlistable_directory (w : world) (arg : option string) n :
  let root := resolve w (match arg with Some a => a | None => "." end) in
  lookup (fs w) root = Some n ->
  listing root n = Raise (PermissionError root) ->
  printed (main w arg) = EmptyString
  /\ errors (main w arg) = Traceback (PermissionError root)
  /\ status (main w arg) = 1%Z
  /\ ~ In (Scandir root) (calls (main w arg))
  /\ match chdir_error root n with
     | None =>
         exists spawns,
           calls (main w arg) = Exists root :: spawns ++ [Iterdir root]
           /\ Forall (spawns_git root) spawns
           /\ (List.length spawns = 1 \/ List.length spawns = 4)
     | Some _ =>
         calls (main w arg) = [Exists root; Spawn ("git" :: branch_args) root]
     end.
Proof.
  intros root Hd Hl.
  assert (Hex : lookup (fs w) root <> None) by (rewrite Hd; discriminate).
  destruct (chdir_error root n) as [e|] eqn:Hc.
  - assert (He : e = PermissionError root).
    { destruct n as [sz | [|] es | es ds | t |]; cbn in Hl, Hc; try discriminate.
      - exfalso. exact (lookup_not_link _ _ _ Hd).
      - now injection Hc as <-. }
    subst e.
    assert (Hf : runs (format_summary w root) (Raise (PermissionError root))
                      [Spawn ("git" :: branch_args) root]).
    { unfold format_summary, collect_git_info. do 2 apply runs_bind_raise.
      exact (run_git_stopped w branch_args root n _ Hd Hc). }
    rewrite (main_of_runs w arg _ _ Hex Hf). cbn [outcome_of printed errors status calls].
    repeat split.
    intros [H|[H|[]]]; discriminate.
  - assert (Hg : can_enter w root) by (exists n; now split).
    destruct (collect_stats_total w root) as (stats & ts & Hs).
    pose proof (format_summary_from_runs w root _ _ _ _ _ _
                  (collect_git_info_enters w root Hg)
                  (collect_file_overview_refused w root n _ Hd Hl) Hs) as Hf.
    cbn [summary_result] in Hf. unfold summary_calls in Hf. rewrite app_nil_r in Hf.
    rewrite (main_of_runs w arg _ _ Hex Hf). cbn [outcome_of printed errors status calls].
    destruct (git_calls_spawn_git w root) as [Hall Hlen].
    repeat split.
    + intros [H|H]; [discriminate|].
      apply in_app_or in H as [H|[H|[]]]; [|discriminate].
      rewrite Forall_forall in Hall. destruct (Hall _ H) as (args & Habs).
      discriminate.
    + exists (git_calls w root). repeat split; assumption.
Qed.

Lemma main_dies_on_unlistable_directory_witness :
  lookup (fs MoreExamples.w6) (resolve MoreExamples.w6 "locked")
    = Some (Dir false [("secret", File 7)])
  /\ main MoreExamples.w6 (Some "locked") =
       {| printed := EmptyString;
          errors := Traceback (PermissionError ["locked"]);
          status := 1;
          calls := [Exists ["locked"]; Spawn ("git" :: branch_args) ["locked"];
                    Iterdir ["locked"]] |}
  /\ lookup (fs MoreExamples.w8) (resolve MoreExamples.w8 "sealed") = Some Closed
  /\ printed (main MoreExamples.w8 (Some "sealed")) = EmptyString
  /\ errors (main MoreExamples.w8 (Some "sealed"))
     = Traceback (PermissionError (resolve MoreExamples.w8 "sealed"))
  /\ status (main MoreExamples.w8 (Some "sealed")) = 1%Z
  /\ ~ In (Scandir (resolve MoreExamples.w8 "sealed"))
          (calls (main MoreExamples.w8 (Some "sealed")))
  /\ calls (main MoreExamples.w8 (Some "sealed"))
     = [Exists ["sealed"]; Spawn ("git" :: branch_args) ["sealed"]].
Proof.
  assert (H1 : lookup (fs MoreExamples.w6) (resolve MoreExamples.w6 "locked")
               = Some (Dir false [("secret", File 7)])) by reflexivity.
  assert (H2 : lookup (fs MoreExamples.w8) (resolve MoreExamples.w8 "sealed")
               = Some Closed) by reflexivity.
  assert (H3 : listing (resolve MoreExamples.w8 "sealed") Closed
               = Raise (PermissionError (resolve MoreExamples.w8 "sealed")))
    by reflexivity.
  split; [exact H1|]. split; [reflexivity|]. split; [exact H2|].
  exact (main_dies_on_unlistable_directory MoreExamples.w8 (Some "sealed") _ H2 H3).
Defined.

(** ** Where the program looks *)

Lemma git_calls_allowed w root : Forall (allowed root) (git_calls w root).
Proof.
  destruct (git_calls_spawn_git w root) as [Hall _].
  eapply Forall_impl; [|exact Hall].
  intros c (args & ->). cbn. split; [reflexivity | now exists args].
Qed.

Lemma beneath_allowed root tr : Forall (beneath root) tr -> Forall (allowed root) tr.
Proof.
  apply Forall_impl. intros c (rel & -> & Hrel). cbn. now exists rel.
Qed.

Lemma collect_git_info_confined w root :
  confined (allowed root) (collect_git_info w root).
Proof.
  assert (Hfirst : Forall (allowed root) [Spawn ("git" :: branch_args) root]).
  { repeat constructor. now exists branch_args. }
  destruct (lookup (fs w) root) as [n|] eqn:Hn.
  - destruct (chdir_error root n) as [e|] eqn:Hc.
    + exists (Raise e), [Spawn ("git" :: branch_args) root]. split; [|exact Hfirst].
      unfold collect_git_info. apply runs_bind_raise.
      exact (run_git_stopped w branch_args root n e Hn Hc).
    + exists (Ok (git_info_of w root)), (git_calls w root).
      split; [|apply git_calls_allowed].
      apply collect_git_info_enters. now exists n.
  - exists (Raise (FileNotFoundError root)), [Spawn ("git" :: branch_args) root].
    split; [|exact Hfirst].
    unfold collect_git_info. apply runs_bind_raise.
    exact (run_git_missing w branch_args root Hn).
Qed.

Lemma overview_loop_confined root l entries :
  confined (allowed root) (overview_loop root l entries).
Proof.
  revert entries. induction l as [|[name o] l IH]; intros entries; cbn [overview_loop].
  - exists (Ok entries), []. split; [apply runs_ret | constructor].
  - destruct (name =? ".git")%string eqn:E; [apply IH|].
    apply String.eqb_neq in E.
    assert (Hname : exists x, root ++ [name] = root ++ [x] /\ x <> ".git")
      by now exists name.
    pose proof (is_dir_runs (root ++ [name]) o) as Hd.
    destruct o as [n|]; cbn [child_is_dir] in Hd.
    + destruct (is_dir_node n).
      * destruct (IH (entries ++ [dir_entry name])) as (r & tr & Hr & Ha).
        exists r, ([IsDir (root ++ [name])] ++ tr). split.
        -- eapply runs_bind; [exact Hd | exact Hr].
        -- constructor; [exact Hname | exact Ha].
      * destruct (IH (entries ++ [file_entry name (node_size n)])) as (r & tr & Hr & Ha).
        exists r, ([IsDir (root ++ [name])] ++ [Stat (root ++ [name])] ++ tr). split.
        -- eapply runs_bind; [exact Hd|]. cbv beta iota.
           eapply runs_bind; [|exact Hr].
           unfold stat_size. apply runs_log_then, runs_ret.
        -- constructor; [exact Hname|]. constructor; [exact Hname | exact Ha].
    + exists (Raise (FileNotFoundError (root ++ [name]))),
             ([IsDir (root ++ [name])] ++ [Stat (root ++ [name])]). split.
      * eapply runs_bind; [exact Hd|]. cbv beta iota.
        apply runs_bind_raise. unfold stat_size. apply runs_log_then, runs_raise.
      * repeat constructor; exact Hname.
Qed.

Lemma collect_file_overview_confined w root :
  confined (allowed root) (collect_file_overview w root).
Proof.
  assert (Hfirst : Forall (allowed root) [Iterdir root]) by now repeat constructor.
  destruct (lookup (fs w) root) as [n|] eqn:Hn.
  - destruct (listing root n) as [l|e] eqn:Hl.
    + destruct (overview_loop_confined root (sorted l) []) as (r & tr & Hr & Ha).
      exists r, ([Iterdir root] ++ tr). split.
      * unfold collect_file_overview.
        eapply runs_bind; [apply (iterdir_runs w root n l Hn Hl) | exact Hr].
      * constructor; [reflexivity | exact Ha].
    + exists (Raise e), [Iterdir root]. split; [|exact Hfirst].
      exact (collect_file_overview_refused w root n e Hn Hl).
  - exists (Raise (FileNotFoundError root)), [Iterdir root]. split; [|exact Hfirst].
    unfold collect_file_overview, iterdir. rewrite Hn.
    apply runs_bind_raise, runs_log_then, runs_raise.
Qed.

Lemma collect_stats_confined w root n :
  lookup (fs w) root = Some n -> wf n = true ->
  confined (allowed root) (collect_stats w root).
Proof.
  intros Hn Hwf.
  destruct (os_walk_counts_pruned n Hwf root {| files := 0; dirs := 0 |})
    as (tr & Hr & Hb).
  eexists. exists tr. split; [|now apply beneath_allowed].
  unfold collect_stats. rewrite Hn. exact Hr.
Qed.

Lemma format_summary_confined w root n :
  lookup (fs w) root = Some n -> wf n = true ->
  confined (allowed root) (format_summary w root).
Proof.
  intros Hn Hwf.
  destruct (collect_git_info_confined w root) as (rg & tg & Hg & Hag).
  destruct (collect_file_overview_confined w root) as (ro & to & Ho & Hao).
  destruct (collect_stats_confined w root n Hn Hwf) as (rs & ts & Hs & Has).
  exists (summary_result root rg ro rs), (summary_calls rg tg ro to ts).
  split; [exact (format_summary_from_runs w root _ _ _ _ _ _ Hg Ho Hs)|].
  unfold summary_calls. apply Forall_app. split; [exact Hag|].
  destruct rg; [|constructor]. apply Forall_app. split; [exact Hao|].
  destruct ro; [exact Has | constructor].
Qed.

(** X10. When the path resolves to an existing object, in a tree where no
    two entries of a directory share a name, every call of the program stays
    with the resolved path: it tests and lists that path, runs nothing but
    the client and only there, looks at children not named ".git", and lists
    directories beneath the path on ways through no ".git". *)
Theorem main_stays_with_the_path (w : world) (arg : option string) (n : node) :
  let root := resolve w (match arg with Some a => a | None => "." end) in
  lookup (fs w) root = Some n ->
  wf n = true ->
  Forall (allowed root) (calls (main w arg)).
Proof.
  intros root Hn Hwf.
  assert (Hex : lookup (fs w) root <> None) by (rewrite Hn; discriminate).
  destruct (format_summary_confined w root n Hn Hwf) as (r & tr & Hf & Ha).
  rewrite (main_of_runs w arg _ _ Hex Hf).
  destruct r; cbn [outcome_of calls]; (constructor; [reflexivity | exact Ha]).
Qed.

Lemma main_stays_with_the_path_witness :
  lookup (fs Examples.w1) (resolve Examples.w1 "repo")
    = Some (Dir true Examples.repo_entries)
  /\ wf (Dir true Examples.repo_entries) = true
  /\ Forall (allowed (resolve Examples.w1 "repo")) (calls (main Examples.w1 (Some "repo"))).
Proof.
  assert (H1 : lookup (fs Examples.w1) (resolve Examples.w1 "repo")
               = Some (Dir true Examples.repo_entries)) by reflexivity.
  assert (H2 : wf (Dir true Examples.repo_entries) = true) by reflexivity.
  split; [exact H1|]. split; [exact H2|].
  exact (main_stays_with_the_path Examples.w1 (Some "repo") _ H1 H2).
Defined.

(** ** Sizes *)

(** X11. A file shows as "name (0.0 KB)" when it has at most 51 bytes, and
    the number of tenths shown is zero for no other size. *)
Theorem small_files_show_zero (name : string) (sz : N) :
  ((sz <= 51)%N <-> Float.tenths (Float.div_1024 sz) = 0%N)
  /\ ((sz <= 51)%N -> file_entry name sz = (name ++ " (0.0 KB)")%string).
Proof.
  assert (Hiff : (sz <= 51)%N <-> Float.tenths (Float.div_1024 sz) = 0%N).
  { destruct (tenths_shown sz) as (m & Hm & H1 & H2 & H3 & H4).
    change (2 ^ 53)%N with 9007199254740992%N in *.
    split; intros H.
    - assert (m = sz) by (apply Hm; lia). lia.
    - rewrite H in *. lia. }
  split; [exact Hiff|].
  intros H. apply Hiff in H. unfold file_entry, Float.format_1f. now rewrite H.
Qed.

(** X12. A file of a whole number [k] of kilobytes, below 2^43, shows as
    "name (k.0 KB)". *)
Theorem whole_kilobytes_show_exactly (name : string) (k : N) :
  (k < 2 ^ 43)%N ->
  file_entry name (1024 * k) = (name ++ " (" ++ Str.of_N k ++ ".0 KB)")%string.
Proof.
  intros Hk. change (2 ^ 43)%N with 8796093022208%N in Hk.
  assert (Ht : Float.tenths (Float.div_1024 (1024 * k)) = (k * 10)%N).
  { destruct (tenths_shown (1024 * k)) as (m & Hm & H1 & H2 & H3 & H4).
    change (2 ^ 53)%N with 9007199254740992%N in *.
    assert (m = (1024 * k)%N) by (apply Hm; lia). lia. }
  unfold file_entry, Float.format_1f. rewrite Ht.
  rewrite N.div_mul by discriminate. rewrite N.Div0.mod_mul.
  now rewrite !append_assoc.
Qed.

Lemma whole_kilobytes_show_exactly_witness :
  (2 < 2 ^ 43)%N
  /\ file_entry "main.py" (1024 * 2) = "main.py (2.0 KB)".
Proof.
  assert (H : (2 < 2 ^ 43)%N) by reflexivity.
  split; [exact H|].
  exact (whole_kilobytes_show_exactly "main.py" 2 H).
Defined.

(** ** The order of the listing *)

Lemma unique_NoDup l : unique l = true -> NoDup l.
Proof.
  induction l as [|x l IH]; simpl; [constructor|].
  intros H. apply andb_true_iff in H as [Hx Hl].
  constructor; [|now apply IH].
  intros Hin. apply negb_true_iff in Hx.
  assert (Hex : existsb (String.eqb x) l = true).
  { apply existsb_exists. exists x. split; [exact Hin | apply String.eqb_refl]. }
  congruence.
Qed.

Lemma same_name_same_entry (l : list (string * node)) x y :
  NoDup (map fst l) -> In x l -> In y l -> fst x = fst y -> x = y.
Proof.
  induction l as [|z l IH]; simpl; [contradiction|].
  intros Hnd Hx Hy Hxy. inversion Hnd as [|? ? Hz Hl]; subst.
  destruct Hx as [<-|Hx], Hy as [<-|Hy]; try reflexivity.
  - exfalso. apply Hz. rewrite Hxy. now apply in_map.
  - exfalso. apply Hz. rewrite <- Hxy. now apply in_map.
  - now apply IH.
Qed.

Lemma sorted_perm_unique (l1 l2 : list (string * node)) :
  StronglySorted name_le l1 -> StronglySorted name_le l2 ->
  Permutation l1 l2 -> NoDup (map fst l1) -> l1 = l2.
Proof.
  revert l2. induction l1 as [|x l1 IH]; intros l2 S1 S2 P Hnd.
  - now apply Permutation_nil in P.
  - destruct l2 as [|y l2]; [apply Permutation_sym, Permutation_nil in P; discriminate|].
    apply StronglySorted_inv in S1 as [S1 Hx]. apply StronglySorted_inv in S2 as [S2 Hy].
    rewrite Forall_forall in Hx, Hy.
    assert (Hxy : x = y).
    { assert (Hin1 : In x (y :: l2)) by (eapply Permutation_in; [exact P | now left]).
      assert (Hin2 : In y (x :: l1))
        by (eapply Permutation_in; [apply Permutation_sym; exact P | now left]).
      destruct Hin1 as [->|Hin1]; [reflexivity|].
      destruct Hin2 as [->|Hin2]; [reflexivity|].
      apply (same_name_same_entry (x :: l1)); [exact Hnd | now left | now right |].
      apply String.leb_antisym; [apply (Hx y Hin2) | apply (Hy x Hin1)]. }
    subst y. f_equal. apply Permutation_cons_inv in P.
    apply IH; [exact S1 | exact S2 | exact P |].
    cbn [map] in Hnd. now inversion Hnd.
Qed.

(** X13. The overview does not depend on the order in which the system
    lists the directory: two listable directories with the same entries, in
    whatever order, no two entries sharing a name, give the same listing
    after the same calls. *)
Theorem overview_ignores_listing_order (w1 w2 : world) (root : path) es1 es2 :
  lookup (fs w1) root = Some (Dir true es1) ->
  lookup (fs w2) root = Some (Dir true es2) ->
  Permutation es1 es2 ->
  unique (map fst es1) = true ->
  exists listing tr,
    runs (collect_file_overview w1 root) (Ok listing) tr
    /\ runs (collect_file_overview w2 root) (Ok listing) tr.
Proof.
  intros H1 H2 P Hu.
  assert (Hs : sorted es1 = sorted es2).
  { apply sorted_perm_unique; try apply sorted_sorted.
    - eapply perm_trans; [apply sorted_perm|].
      eapply perm_trans; [exact P | apply Permutation_sym, sorted_perm].
    - eapply Permutation_NoDup; [|apply unique_NoDup; exact Hu].
      apply Permutation_map, Permutation_sym, sorted_perm. }
  eexists. eexists. split.
  - apply (collect_file_overview_runs w1 root es1 H1).
  - rewrite Hs. apply (collect_file_overview_runs w2 root es2 H2).
Qed.

Lemma overview_ignores_listing_order_witness :
  lookup (fs Examples.w0) ["repo"] = Some (Dir true Examples.repo_entries)
  /\ lookup (fs MoreExamples.w7) ["repo"] = Some (Dir true (rev Examples.repo_entries))
  /\ unique (map fst Examples.repo_entries) = true
  /\ exists listing tr,
       runs (collect_file_overview Examples.w0 ["repo"]) (Ok listing) tr
       /\ runs (collect_file_overview MoreExamples.w7 ["repo"]) (Ok listing) tr.
Proof.
  assert (H1 : lookup (fs Examples.w0) ["repo"] = Some (Dir true Examples.repo_entries))
    by reflexivity.
  assert (H2 : lookup (fs MoreExamples.w7) ["repo"]
               = Some (Dir true (rev Examples.repo_entries))) by reflexivity.
  assert (H3 : unique (map fst Examples.repo_entries) = true) by reflexivity.
  split; [exact H1|]. split; [exact H2|]. split; [exact H3|].
  exact (overview_ignores_listing_order Examples.w0 MoreExamples.w7 ["repo"] _ _
           H1 H2 (Permutation_rev Examples.repo_entries) H3).
Defined.
